(** * Verification of [lambda/auth.go]: the [authenticate] middleware

    The development embeds the Go function [authenticate] of package
    [lambda] and the data it handles.  The packages the function imports
    ([encoding/pem], [crypto/x509], [github.com/dgrijalva/jwt-go]) are not
    part of the repository; [authenticate] is written against their
    interface, the record [Packages], and every general statement holds
    for all implementations of it.  What [encoding/json] does with the
    "application_claim" value and what [net/http] does with a header key
    is written out, because the claim extraction depends on it. *)

From Stdlib Require Import ZArith String Ascii List Bool Lia.
From stdpp Require Import base strings gmap list.
Import ListNotations.
Open Scope string_scope.

Set Warnings "-register-all".

(** ** Errors *)

(** The five package-level error values of [auth.go] (lines 28-34), and the
    error values of the imported packages that can reach the caller:
    [lib_error] is an error made inside a package ([errors.New] and the
    like), known by its text. *)
Inductive error : Type :=
  | errorInvalidClaims
  | errorInvalidPublicKey
  | errorEmptyRequestToken
  | errorInvalidApplication
  | errorInvalidNamespace
  | lib_error (text : string)
  | jwt_ValidationError (Inner : option error) (Errors : N) (text : string)
  | json_UnmarshalTypeError (Value Type_ Struct Field : string).

(** The [Error()] method: the text a caller gets from the verdict. *)
Fixpoint Error (e : error) : string :=
  match e with
  | errorInvalidClaims => "Invalid Claims"
  | errorInvalidPublicKey => "Invalid public key"
  | errorEmptyRequestToken => "Authentication token was not provided in the request"
  | errorInvalidApplication => "Application ID was not provided"
  | errorInvalidNamespace => "Namespace ID was not provided"
  | lib_error text => text
  | jwt_ValidationError (Some inner) _ _ => Error inner
  | jwt_ValidationError None _ text =>
      if String.eqb text "" then "token is invalid" else text
  | json_UnmarshalTypeError v t st f =>
      if String.eqb st "" && String.eqb f ""
      then "json: cannot unmarshal " ++ v ++ " into Go value of type " ++ t
      else "json: cannot unmarshal " ++ v ++ " into Go struct field "
           ++ st ++ "." ++ f ++ " of type " ++ t
  end.

(** The error values declared by [auth.go] itself. *)
Definition declared_in_auth (e : error) : bool :=
  match e with
  | errorInvalidClaims | errorInvalidPublicKey | errorEmptyRequestToken
  | errorInvalidApplication | errorInvalidNamespace => true
  | _ => false
  end.

(** ** Data *)

(** [ApplicationClaim] (auth.go:17-20). *)
Record ApplicationClaim : Type := {
  NamespaceID : string;
  ApplicationID : string
}.

(** A JSON document.  An object keeps its members in the order of the
    text, duplicates included. *)
Inductive json : Type :=
  | JNull
  | JBool (b : bool)
  | JNumber (literal : string)
  | JString (s : string)
  | JArray (elems : list json)
  | JObject (members : list (string * json)).

(** [jwt.MapClaims]: claim name to decoded value. *)
Abbreviation MapClaims := (gmap string json).

Record rsa_PublicKey : Type := { N_ : Z; E_ : Z }.

Record pem_Block : Type := {
  Type_ : string;
  Bytes : string
}.

(** The dynamic values a [jwt.Keyfunc] result ([interface{}]) can hold, as
    far as the signing methods of jwt-go tell them apart. *)
Inductive any : Type :=
  | any_rsa_PublicKey (k : rsa_PublicKey)
  | any_bytes (b : string)
  | any_ecdsa_PublicKey (X Y : Z)
  | any_unsafeNoneMagicConstant.

(** The signing methods jwt-go registers, each family with the hash of
    the variant (256, 384, 512). *)
Inductive SigningMethod : Type :=
  | SigningMethodHMAC (bits : N)
  | SigningMethodRSA (bits : N)
  | SigningMethodRSAPSS (bits : N)
  | SigningMethodECDSA (bits : N)
  | signingMethodNone.

Record jwt_Token : Type := {
  Raw : string;
  Method : SigningMethod;
  Header_ : gmap string json;
  Claims_ : MapClaims
}.

Definition Keyfunc : Type := jwt_Token -> any * option error.

(** [http.Request], reduced to the field [authenticate] reads. *)
Record http_Request : Type := {
  Header : gmap string (list string)
}.

(** The imported packages, as [authenticate] calls them.
    [jwt_ParseWithClaims tokenString claims keyFunc] gives the content of
    the claims map after the call and the error; the token it also returns
    is dropped by the caller. *)
Record Packages : Type := {
  pem_Decode : string -> option pem_Block;
  x509_ParsePKCS1PublicKey : string -> option rsa_PublicKey * option error;
  jwt_ParseWithClaims : string -> MapClaims -> Keyfunc -> MapClaims * option error
}.

(** ** [net/http]: [Header.Get] *)

Definition is_lower (c : ascii) : bool :=
  (Ascii.leb "a" c && Ascii.leb c "z")%char.
Definition is_upper (c : ascii) : bool :=
  (Ascii.leb "A" c && Ascii.leb c "Z")%char.
Definition is_digit (c : ascii) : bool :=
  (Ascii.leb "0" c && Ascii.leb c "9")%char.

Definition to_upper (c : ascii) : ascii :=
  if is_lower c then ascii_of_nat (nat_of_ascii c - 32) else c.
Definition to_lower (c : ascii) : ascii :=
  if is_upper c then ascii_of_nat (nat_of_ascii c + 32) else c.

(** The bytes of an HTTP token (RFC 7230 tchar). *)
Definition validHeaderFieldByte (c : ascii) : bool :=
  is_lower c || is_upper c || is_digit c
  || existsb (Ascii.eqb c) (list_ascii_of_string "!#$%&'*+-.^_`|~").

Fixpoint canonicalize (upper : bool) (s : string) : string :=
  match s with
  | EmptyString => EmptyString
  | String c s' =>
      let c' := if upper then to_upper c else to_lower c in
      String c' (canonicalize (Ascii.eqb c' "-") s')
  end.

(** [textproto.CanonicalMIMEHeaderKey]: first letter and every letter after
    a hyphen in upper case, the others in lower case; a key with a byte
    that is not a token byte is left as it is. *)
Definition CanonicalMIMEHeaderKey (s : string) : string :=
  if forallb validHeaderFieldByte (list_ascii_of_string s)
  then canonicalize true s else s.

(** [Header.Get]: the first value stored under the canonical key, "" when
    there is none. *)
Definition Header_Get (h : gmap string (list string)) (key : string) : string :=
  match h !! CanonicalMIMEHeaderKey key with
  | Some (v :: _) => v
  | _ => ""
  end.

(** [os.Getenv]: "" when the variable is not set. *)
Definition Getenv (environ : gmap string string) (key : string) : string :=
  default "" (environ !! key).

(** ** [encoding/json] on the "application_claim" value *)

(** [json.Marshal(claims["application_claim"])].  The byte slice it returns
    is kept as the document it spells; a nil interface (the key is not in
    the map) is marshalled as [null].  The values of a claims map come from
    a JSON text, so marshalling them does not fail. *)
Definition json_Marshal (v : option json) : json * option error :=
  (default JNull v, None).

(** The decoder keeps the first type error and goes on. *)
Definition saveError (saved : option error) (e : error) : option error :=
  match saved with
  | Some _ => saved
  | None => Some e
  end.

Definition Value_of (v : json) : string :=
  match v with
  | JNull => "null"
  | JBool _ => "bool"
  | JNumber _ => "number"
  | JString _ => "string"
  | JArray _ => "array"
  | JObject _ => "object"
  end.

Definition byte_is (c : ascii) (n : nat) : bool := Nat.eqb (nat_of_ascii c) n.

(** Case folding of an object key: ASCII letters to upper case; U+017F
    (bytes C5 BF) folds to S and U+212A (bytes E2 84 AA) to K. *)
Fixpoint foldName (s : string) : string :=
  match s with
  | EmptyString => EmptyString
  | String c s1 =>
      match s1 with
      | String c2 s2 =>
          if byte_is c 197 && byte_is c2 191 then String "S" (foldName s2)
          else
            match s2 with
            | String c3 s3 =>
                if byte_is c 226 && byte_is c2 132 && byte_is c3 170
                then String "K" (foldName s3)
                else String (to_upper c) (foldName s1)
            | EmptyString => String (to_upper c) (foldName s1)
            end
      | EmptyString => String (to_upper c) (foldName s1)
      end
  end.

(** The two fields of [ApplicationClaim], by their json tags. *)
Inductive field : Type := field_NamespaceID | field_ApplicationID.

Definition tag (f : field) : string :=
  match f with
  | field_NamespaceID => "namespace_id"
  | field_ApplicationID => "application_id"
  end.

(** The field an object key selects: the exact tag first, else the tag
    equal to it under folding; no field for any other key. *)
Definition field_of_key (key : string) : option field :=
  if String.eqb key (tag field_NamespaceID) then Some field_NamespaceID
  else if String.eqb key (tag field_ApplicationID) then Some field_ApplicationID
  else if String.eqb (foldName key) (foldName (tag field_NamespaceID))
       then Some field_NamespaceID
  else if String.eqb (foldName key) (foldName (tag field_ApplicationID))
       then Some field_ApplicationID
  else None.

Definition set_field (f : field) (s : string) (c : ApplicationClaim) : ApplicationClaim :=
  match f with
  | field_NamespaceID => {| NamespaceID := s; ApplicationID := ApplicationID c |}
  | field_ApplicationID => {| NamespaceID := NamespaceID c; ApplicationID := s |}
  end.

Definition decoder_state : Type := ApplicationClaim * option error.

(** One member of an object decoded into the struct: a string is stored,
    [null] leaves the field as it is, any other value is a type error;
    a key that selects no field is skipped.  [Struct] and [Field] of the
    type error are filled as the encoding/json releases of the time of
    [auth.go] fill them (the struct's name, the field's tag); later
    releases report a path that starts with the index of the array
    element instead.  Nothing below depends on these two fields. *)
Definition decode_member (st : decoder_state) (kv : string * json) : decoder_state :=
  match field_of_key (fst kv) with
  | None => st
  | Some f =>
      match snd kv with
      | JString s => (set_field f s (fst st), snd st)
      | JNull => st
      | v => (fst st,
              saveError (snd st)
                (json_UnmarshalTypeError (Value_of v) "string" "ApplicationClaim" (tag f)))
      end
  end.

Definition zero_ApplicationClaim : ApplicationClaim :=
  {| NamespaceID := ""; ApplicationID := "" |}.

(** One array element decoded into a fresh (zero) [ApplicationClaim].  For
    an element that is not an object the type error carries no [Struct]
    and no [Field] here; later encoding/json releases put the index of
    the element in [Field]. *)
Definition decode_element (saved : option error) (v : json) : decoder_state :=
  match v with
  | JObject members => fold_left decode_member members (zero_ApplicationClaim, saved)
  | JNull => (zero_ApplicationClaim, saved)
  | _ => (zero_ApplicationClaim,
          saveError saved
            (json_UnmarshalTypeError (Value_of v) "lambda.ApplicationClaim" "" ""))
  end.

Fixpoint decode_elements (saved : option error) (vs : list json)
  : list ApplicationClaim * option error :=
  match vs with
  | [] => ([], saved)
  | v :: vs' =>
      let (c, saved') := decode_element saved v in
      let (cs, saved'') := decode_elements saved' vs' in
      (c :: cs, saved'')
  end.

(** [json.Unmarshal(data, &parsedClaims)] for [parsedClaims] of type
    [[]ApplicationClaim]: [null] sets the slice to nil, an array is decoded
    element by element, any other document is a type error and leaves the
    slice as it was. *)
Definition json_Unmarshal (data : json) (parsedClaims : list ApplicationClaim)
  : list ApplicationClaim * option error :=
  match data with
  | JNull => ([], None)
  | JArray vs => decode_elements None vs
  | _ => (parsedClaims,
          Some (json_UnmarshalTypeError (Value_of data) "[]lambda.ApplicationClaim" "" ""))
  end.

(** The shape the decoder accepts, in the words of the data model: [null]
    or an array whose elements are [null] or objects in which each member
    that names a field of [ApplicationClaim] is a string or [null]. *)
Definition member_has_shape (kv : string * json) : bool :=
  match field_of_key (fst kv) with
  | None => true
  | Some _ =>
      match snd kv with
      | JString _ | JNull => true
      | _ => false
      end
  end.

Definition element_has_shape (v : json) : bool :=
  match v with
  | JObject members => forallb member_has_shape members
  | JNull => true
  | _ => false
  end.

Definition sequence_of_claims (data : json) : bool :=
  match data with
  | JNull => true
  | JArray vs => forallb element_has_shape vs
  | _ => false
  end.

Definition is_UnmarshalTypeError (e : error) : bool :=
  match e with
  | json_UnmarshalTypeError _ _ _ _ => true
  | _ => false
  end.

(** The saved error of the decoder, if any, is a type error. *)
Definition no_other_error (saved : option error) : Prop :=
  ∀ e, saved = Some e → is_UnmarshalTypeError e = true.

(** ** Control flow of a Go function with a named result *)

(** The calls [authenticate] makes, in the order it makes them. *)
Inductive call : Type :=
  | call_os_Getenv (key : string)
  | call_Header_Get (key : string)
  | call_pem_Decode (data : string)
  | call_x509_ParsePKCS1PublicKey (der : string)
  | call_log_Print (v : option error)
  | call_jwt_ParseWithClaims (tokenString : string)
  | call_json_Marshal (v : option json)
  | call_json_Unmarshal (data : json).

(** A computation appends to the log of calls and either has executed a
    [return] with the value of [err] ([inl]), or goes on with a value
    ([inr]). *)
Definition M (A : Type) : Type := list call -> (option error + A) * list call.

Definition ret {A : Type} (a : A) : M A := fun log => (inr a, log).

Definition bind {A B : Type} (m : M A) (k : A -> M B) : M B :=
  fun log =>
    match m log with
    | (inl err, log') => (inl err, log')
    | (inr a, log') => k a log'
    end.

Definition Return {A : Type} (err : option error) : M A := fun log => (inl err, log).

Definition invoke {A : Type} (c : call) (result : A) : M A :=
  fun log => (inr result, (log ++ [c])%list).

Declare Scope go_scope.
Delimit Scope go_scope with go.
Notation "'let*' x ':=' m 'in' k" := (bind m (fun x => k))
  (at level 10, x pattern, m at level 100, k at level 200) : go_scope.
Notation "m ';;' k" := (bind m (fun _ => k))
  (at level 100, k at level 200, right associativity) : go_scope.

(** The result of a function whose every path ends in [return]. *)
Definition run (m : M Empty_set) : option error * list call :=
  match m [] with
  | (inl err, log) => (err, log)
  | (inr x, _) => match x with end
  end.

(** ** [authenticate] (auth.go:44-119) *)

Section Authenticate.

Variable pkg : Packages.
Variable environ : gmap string string.

Definition os_Getenv (key : string) : M string :=
  invoke (call_os_Getenv key) (Getenv environ key).

Definition req_Header_Get (req : http_Request) (key : string) : M string :=
  invoke (call_Header_Get key) (Header_Get (Header req) key).

Definition pem_Decode_ (data : string) : M (option pem_Block) :=
  invoke (call_pem_Decode data) (pem_Decode pkg data).

Definition x509_ParsePKCS1PublicKey_ (der : string)
  : M (option rsa_PublicKey * option error) :=
  invoke (call_x509_ParsePKCS1PublicKey der) (x509_ParsePKCS1PublicKey pkg der).

Definition log_Print (v : option error) : M unit :=
  invoke (call_log_Print v) tt.

Definition jwt_ParseWithClaims_ (tokenString : string) (claims : MapClaims)
    (keyFunc : Keyfunc) : M (MapClaims * option error) :=
  invoke (call_jwt_ParseWithClaims tokenString)
         (jwt_ParseWithClaims pkg tokenString claims keyFunc).

Definition json_Marshal_ (v : option json) : M (json * option error) :=
  invoke (call_json_Marshal v) (json_Marshal v).

Definition json_Unmarshal_ (data : json) (into : list ApplicationClaim)
  : M (list ApplicationClaim * option error) :=
  invoke (call_json_Unmarshal data) (json_Unmarshal data into).

(** The key function handed to the parser (auth.go:81-83). *)
Definition keyFunc (parsedKey : rsa_PublicKey) : Keyfunc :=
  fun token => (any_rsa_PublicKey parsedKey, None).

Local Open Scope go_scope.

Definition authenticate (req : http_Request) : M Empty_set :=
  let* isPublicFunction := os_Getenv "SCW_PUBLIC" in
  if String.eqb isPublicFunction "true" then Return None else
  (* Check that request holds an authentication token *)
  let* requestToken := req_Header_Get req "SCW_FUNCTIONS_TOKEN" in
  if String.eqb requestToken "" then Return (Some errorEmptyRequestToken) else
  (* Retrieve Public Key used to parse JWT *)
  let* publicKey := os_Getenv "SCW_PUBLIC_KEY" in
  if String.eqb publicKey "" then Return (Some errorInvalidPublicKey) else
  let* block := pem_Decode_ publicKey in
  match block with
  | None => Return (Some errorInvalidPublicKey)
  | Some block =>
  let* (parsedKey, err) := x509_ParsePKCS1PublicKey_ (Bytes block) in
  match err, parsedKey with
  | None, Some parsedKey =>
  (* Parse JWT and retrieve claims *)
  let* (claims, err) :=
    jwt_ParseWithClaims_ requestToken ∅ (keyFunc parsedKey) in
  match err with
  | Some _ => Return err
  | None =>
  let* (marshalledClaims, err) := json_Marshal_ (claims !! "application_claim") in
  match err with
  | Some _ => Return err
  | None =>
  let* (parsedClaims, err) := json_Unmarshal_ marshalledClaims [] in
  match err with
  | Some _ => Return err
  | None =>
  match parsedClaims with
  | [] => Return (Some errorInvalidClaims)
  | applicationClaims :: _ =>
  let* applicationID := os_Getenv "SCW_APPLICATION_ID" in
  let* namespaceID := os_Getenv "SCW_NAMESPACE_ID" in
  if String.eqb applicationID "" then Return (Some errorInvalidApplication)
  else if String.eqb namespaceID "" then Return (Some errorInvalidNamespace)
  else
  (* Check that the token's claims match with the injected Application or
     Namespace ID *)
  if negb (String.eqb (NamespaceID applicationClaims) namespaceID)
     && negb (String.eqb (ApplicationID applicationClaims) applicationID)
  then Return (Some errorInvalidClaims)
  else Return err
  end end end end
  | _, _ =>
  (* err != nil || parsedKey == nil *)
  log_Print err ;;
  Return (Some errorInvalidPublicKey)
  end end.

(** The verdict of one check, and the calls made to reach it. *)
Definition verdict (req : http_Request) : option error :=
  fst (run (authenticate req)).

Definition calls (req : http_Request) : list call :=
  snd (run (authenticate req)).

(** *** The stages of one check

    What it means for a check to get past each of the first stages;
    the statements below are made relative to them. *)

(** The function is not marked public. *)
Definition private : Prop := Getenv environ "SCW_PUBLIC" ≠ "true".

(** The credential of the request. *)
Definition token_of (req : http_Request) : string :=
  Header_Get (Header req) "SCW_FUNCTIONS_TOKEN".

(** The configured key string is not empty, holds a PEM block, and the
    block parses to [parsedKey] without error. *)
Definition key_loaded (parsedKey : rsa_PublicKey) : Prop :=
  Getenv environ "SCW_PUBLIC_KEY" ≠ ""
  ∧ ∃ block, pem_Decode pkg (Getenv environ "SCW_PUBLIC_KEY") = Some block
             ∧ x509_ParsePKCS1PublicKey pkg (Bytes block) = (Some parsedKey, None).

(** One of the three ways the key can fail to load. *)
Inductive key_load_failure : Prop :=
  | key_string_empty :
      Getenv environ "SCW_PUBLIC_KEY" = "" → key_load_failure
  | no_pem_block :
      pem_Decode pkg (Getenv environ "SCW_PUBLIC_KEY") = None → key_load_failure
  | not_a_pkcs1_key (block : pem_Block) (parsedKey : option rsa_PublicKey)
      (err : option error) :
      pem_Decode pkg (Getenv environ "SCW_PUBLIC_KEY") = Some block →
      x509_ParsePKCS1PublicKey pkg (Bytes block) = (parsedKey, err) →
      is_Some err ∨ parsedKey = None →
      key_load_failure.

(** The parser's answer for the request's token under the loaded key. *)
Definition parsed (req : http_Request) (parsedKey : rsa_PublicKey)
  : MapClaims * option error :=
  jwt_ParseWithClaims pkg (token_of req) ∅ (keyFunc parsedKey).

(** Public check, token presence and key load are passed. *)
Definition reaches_verify (req : http_Request) (parsedKey : rsa_PublicKey) : Prop :=
  private ∧ token_of req ≠ "" ∧ key_loaded parsedKey.

(** ... and the token is verified, with claim set [claims]. *)
Definition verified (req : http_Request) (claims : MapClaims) : Prop :=
  ∃ parsedKey, reaches_verify req parsedKey ∧ parsed req parsedKey = (claims, None).

(** ... and the claim extraction gives [applicationClaims] as the first
    entry. *)
Definition first_claim (req : http_Request) (applicationClaims : ApplicationClaim)
  : Prop :=
  ∃ claims rest,
    verified req claims
    ∧ json_Unmarshal (fst (json_Marshal (claims !! "application_claim"))) []
      = (applicationClaims :: rest, None).

(** The calls made up to and including the token parser. *)
Definition calls_to_verify (req : http_Request) (block : pem_Block) : list call :=
  [ call_os_Getenv "SCW_PUBLIC"; call_Header_Get "SCW_FUNCTIONS_TOKEN";
    call_os_Getenv "SCW_PUBLIC_KEY";
    call_pem_Decode (Getenv environ "SCW_PUBLIC_KEY");
    call_x509_ParsePKCS1PublicKey (Bytes block);
    call_jwt_ParseWithClaims (token_of req) ].

End Authenticate.

(** The calls that load the key or parse the token. *)
Definition loads_key_or_parses_token (c : call) : bool :=
  match c with
  | call_pem_Decode _ | call_x509_ParsePKCS1PublicKey _
  | call_jwt_ParseWithClaims _ => true
  | _ => false
  end.

(** ** The token parser of jwt-go

    [jwt.ParseWithClaims] belongs to github.com/dgrijalva/jwt-go, which
    [auth.go] imports.  Its steps are written out here so that statements
    about the signing algorithm of a token can be made at all: splitting
    the compact form, decoding header and claims, looking up the signing
    method named by the header, asking the key function for the key,
    validating the claims, and [Verify] of the method, which checks the
    dynamic type of the key before it uses it.  The default registry of
    signing methods is taken.  Base64, JSON text decoding, the clock
    behind the claims validation and the signature arithmetic are the
    [Primitives]; nothing is assumed about them. *)
Module jwt.

Definition ValidationErrorMalformed : N := 1.
Definition ValidationErrorUnverifiable : N := 2.
Definition ValidationErrorSignatureInvalid : N := 4.
Definition ValidationErrorClaimsInvalid : N := 512.

Definition NewValidationError (errorText : string) (errorFlags : N) : error :=
  jwt_ValidationError None errorFlags errorText.

Definition ErrInvalidKey : error := lib_error "key is invalid".
Definition ErrInvalidKeyType : error := lib_error "key is of invalid type".
Definition NoneSignatureTypeDisallowedError : error :=
  NewValidationError "'none' signature type is not allowed"
    ValidationErrorSignatureInvalid.

(** The methods registered when the package is loaded. *)
Definition signingMethods : list (string * SigningMethod) :=
  [ ("HS256", SigningMethodHMAC 256); ("HS384", SigningMethodHMAC 384);
    ("HS512", SigningMethodHMAC 512);
    ("RS256", SigningMethodRSA 256); ("RS384", SigningMethodRSA 384);
    ("RS512", SigningMethodRSA 512);
    ("PS256", SigningMethodRSAPSS 256); ("PS384", SigningMethodRSAPSS 384);
    ("PS512", SigningMethodRSAPSS 512);
    ("ES256", SigningMethodECDSA 256); ("ES384", SigningMethodECDSA 384);
    ("ES512", SigningMethodECDSA 512);
    ("none", signingMethodNone) ].

Definition GetSigningMethod (alg : string) : option SigningMethod :=
  snd <$> List.find (fun m => String.eqb alg (fst m)) signingMethods.

(** [strings.Split(s, ".")]. *)
Fixpoint Split (s : string) : list string :=
  match s with
  | EmptyString => [EmptyString]
  | String c s' =>
      if Ascii.eqb c "." then EmptyString :: Split s'
      else match Split s' with
           | seg :: segs => String c seg :: segs
           | [] => [String c EmptyString]
           end
  end.

Fixpoint ToLower (s : string) : string :=
  match s with
  | EmptyString => EmptyString
  | String c s' => String (to_lower c) (ToLower s')
  end.

Record Primitives : Type := {
  DecodeSegment : string -> error + string;
  decode_Header : string -> error + gmap string json;
  decode_Claims : string -> MapClaims -> error + MapClaims;
  Valid : MapClaims -> option error;
  rsa_VerifyPKCS1v15 : rsa_PublicKey -> N -> string -> string -> option error;
  rsa_VerifyPSS : rsa_PublicKey -> N -> string -> string -> option error;
  hmac_Verify : string -> N -> string -> string -> option error;
  ecdsa_Verify : Z -> Z -> N -> string -> string -> option error
}.

Section Parser.

Variable P : Primitives.

(** [Verify] of each signing method. *)
Definition Verify (m : SigningMethod) (signingString signature : string)
    (key : any) : option error :=
  match m with
  | SigningMethodHMAC bits =>
      match key with
      | any_bytes keyBytes =>
          match DecodeSegment P signature with
          | inl err => Some err
          | inr sig => hmac_Verify P keyBytes bits signingString sig
          end
      | _ => Some ErrInvalidKeyType
      end
  | SigningMethodRSA bits =>
      match DecodeSegment P signature with
      | inl err => Some err
      | inr sig =>
          match key with
          | any_rsa_PublicKey rsaKey =>
              rsa_VerifyPKCS1v15 P rsaKey bits signingString sig
          | _ => Some ErrInvalidKeyType
          end
      end
  | SigningMethodRSAPSS bits =>
      match DecodeSegment P signature with
      | inl err => Some err
      | inr sig =>
          match key with
          | any_rsa_PublicKey rsaKey =>
              rsa_VerifyPSS P rsaKey bits signingString sig
          | _ => Some ErrInvalidKey
          end
      end
  | SigningMethodECDSA bits =>
      match DecodeSegment P signature with
      | inl err => Some err
      | inr sig =>
          match key with
          | any_ecdsa_PublicKey X Y => ecdsa_Verify P X Y bits signingString sig
          | _ => Some ErrInvalidKeyType
          end
      end
  | signingMethodNone =>
      match key with
      | any_unsafeNoneMagicConstant =>
          if String.eqb signature "" then None
          else Some (NewValidationError
                       "'none' signing method with non-empty signature"
                       ValidationErrorSignatureInvalid)
      | _ => Some NoneSignatureTypeDisallowedError
      end
  end.

(** [Parser.ParseUnverified]: the claims map after the call, and the
    error or the token with its three segments. *)
Definition ParseUnverified (tokenString : string) (claims : MapClaims)
  : MapClaims * (error + jwt_Token * list string) :=
  let parts := Split tokenString in
  if negb (Nat.eqb (length parts) 3) then
    (claims, inl (NewValidationError
                    "token contains an invalid number of segments"
                    ValidationErrorMalformed))
  else
  match DecodeSegment P (nth 0 parts "") with
  | inl err =>
      if String.prefix "bearer " (ToLower tokenString) then
        (claims, inl (NewValidationError
                        "tokenstring should not contain 'bearer '"
                        ValidationErrorMalformed))
      else (claims, inl (jwt_ValidationError (Some err) ValidationErrorMalformed ""))
  | inr headerBytes =>
  match decode_Header P headerBytes with
  | inl err => (claims, inl (jwt_ValidationError (Some err) ValidationErrorMalformed ""))
  | inr header =>
  match DecodeSegment P (nth 1 parts "") with
  | inl err => (claims, inl (jwt_ValidationError (Some err) ValidationErrorMalformed ""))
  | inr claimBytes =>
  match decode_Claims P claimBytes claims with
  | inl err => (claims, inl (jwt_ValidationError (Some err) ValidationErrorMalformed ""))
  | inr claims' =>
  (* Lookup signature method *)
  match header !! "alg" with
  | Some (JString method) =>
      match GetSigningMethod method with
      | None =>
          (claims', inl (NewValidationError "signing method (alg) is unavailable."
                           ValidationErrorUnverifiable))
      | Some m =>
          (claims', inr ({| Raw := tokenString; Method := m;
                            Header_ := header; Claims_ := claims' |}, parts))
      end
  | _ =>
      (claims', inl (NewValidationError "signing method (alg) is unspecified."
                       ValidationErrorUnverifiable))
  end end end end end.

(** [jwt.ParseWithClaims] (no [ValidMethods], claims validation on). *)
Definition ParseWithClaims (tokenString : string) (claims : MapClaims)
    (keyFunc : Keyfunc) : MapClaims * option error :=
  match ParseUnverified tokenString claims with
  | (claims', inl err) => (claims', Some err)
  | (claims', inr (token, parts)) =>
      match keyFunc token with
      | (_, Some err) =>
          match err with
          | jwt_ValidationError _ _ _ => (claims', Some err)
          | _ => (claims', Some (jwt_ValidationError (Some err)
                                   ValidationErrorUnverifiable ""))
          end
      | (key, None) =>
          (* Validate Claims *)
          let vErr : option error * N * string :=
            match Valid P claims' with
            | None => (None, 0%N, "")
            | Some (jwt_ValidationError inner flags text) => (inner, flags, text)
            | Some err => (Some err, ValidationErrorClaimsInvalid, "")
            end in
          (* Perform validation *)
          let signingString := nth 0 parts "" ++ "." ++ nth 1 parts "" in
          let vErr : option error * N * string :=
            match Verify (Method token) signingString (nth 2 parts "") key with
            | Some err =>
                (Some err, N.lor (snd (fst vErr)) ValidationErrorSignatureInvalid,
                 snd vErr)
            | None => vErr
            end in
          if N.eqb (snd (fst vErr)) 0 then (claims', None)
          else (claims', Some (jwt_ValidationError (fst (fst vErr))
                                 (snd (fst vErr)) (snd vErr)))
      end
  end.

(** The algorithm the header of a compact token declares, when the
    header can be read at all. *)
Definition declared_alg (tokenString : string) : option string :=
  match Split tokenString with
  | [h; _; _] =>
      match DecodeSegment P h with
      | inr headerBytes =>
          match decode_Header P headerBytes with
          | inr header =>
              match header !! "alg" with
              | Some (JString method) => Some method
              | _ => None
              end
          | inl _ => None
          end
      | inl _ => None
      end
  | _ => None
  end.

End Parser.

(** The methods whose [Verify] works with an RSA public key, and the
    names they are registered under. *)
Definition takes_rsa_key (m : SigningMethod) : bool :=
  match m with
  | SigningMethodRSA _ | SigningMethodRSAPSS _ => true
  | _ => false
  end.

Definition rsa_family (alg : string) : bool :=
  existsb (String.eqb alg) ["RS256"; "RS384"; "RS512"; "PS256"; "PS384"; "PS512"].

End jwt.

(** ** A fixture

    A small world to run the check in: tokens of the form
    [alg.claims.signature] whose segments are not encoded, the header
    segment being the algorithm name and the claims segment naming one of
    a few claim sets; a signature is good when it reads [signed]. *)
Module Fixture.

Definition key : rsa_PublicKey := {| N_ := 3233; E_ := 17 |}.

Definition claim (ns app : string) : json :=
  JObject [("namespace_id", JString ns); ("application_id", JString app)].

Definition claim_sets : list (string * list (string * json)) :=
  [ ("ns-1+app-9", [("application_claim", JArray [claim "ns-1" "app-9"])]);
    ("ns-2+app-9", [("application_claim", JArray [claim "ns-2" "app-9"])]);
    ("empty", [("application_claim", JArray [])]);
    ("string", [("application_claim", JString "ns-1")]);
    ("absent", [("sub", JString "someone")]) ].

Definition rsa_verify (k : rsa_PublicKey) (bits : N) (signingString sig : string)
  : option error :=
  if String.eqb sig "signed" then None
  else Some (lib_error "crypto/rsa: verification error").

Definition primitives : jwt.Primitives := {|
  jwt.DecodeSegment := fun seg => inr seg;
  jwt.decode_Header := fun s => inr {[ "alg" := JString s ]};
  jwt.decode_Claims := fun s claims =>
    match List.find (fun cs => String.eqb s (fst cs)) claim_sets with
    | Some cs => inr (list_to_map (snd cs) ∪ claims)
    | None => inl (lib_error "unexpected end of JSON input")
    end;
  jwt.Valid := fun _ => None;
  jwt.rsa_VerifyPKCS1v15 := rsa_verify;
  jwt.rsa_VerifyPSS := rsa_verify;
  jwt.hmac_Verify := fun _ _ _ _ => Some (lib_error "signature is invalid");
  jwt.ecdsa_Verify := fun _ _ _ _ _ => Some (lib_error "crypto/ecdsa: verification error")
|}.

Definition packages : Packages := {|
  pem_Decode := fun data =>
    if String.eqb data "PEM"
    then Some {| Type_ := "RSA PUBLIC KEY"; Bytes := "DER" |}
    else if String.eqb data "PEM of an EC key"
    then Some {| Type_ := "PUBLIC KEY"; Bytes := "SPKI" |}
    else None;
  x509_ParsePKCS1PublicKey := fun der =>
    if String.eqb der "DER" then (Some key, None)
    else (None, Some (lib_error "asn1: structure error: tags don't match"));
  jwt_ParseWithClaims := jwt.ParseWithClaims primitives
|}.

(** Runtime identity {ApplicationID: app-1, NamespaceID: ns-1}, private. *)
Definition environ : gmap string string :=
  list_to_map [ ("SCW_PUBLIC_KEY", "PEM");
                ("SCW_APPLICATION_ID", "app-1");
                ("SCW_NAMESPACE_ID", "ns-1") ].

Definition request (tokenString : string) : http_Request :=
  {| Header := {[ "Scw_functions_token" := [tokenString] ]} |}.

Definition no_token : http_Request := {| Header := ∅ |}.

End Fixture.

(** ** The ways out of [authenticate]

    One constructor for each [return] of the function, with the tests
    that lead to it and the calls made on the way. *)
Section Exits.

Variable pkg : Packages.
Variable environ : gmap string string.
Variable req : http_Request.

(** The key string is read, holds the PEM block [block], and the block
    parses to [parsedKey]. *)
Definition key_loaded_from (block : pem_Block) (parsedKey : rsa_PublicKey) : Prop :=
  private environ ∧ token_of req ≠ ""
  ∧ Getenv environ "SCW_PUBLIC_KEY" ≠ ""
  ∧ pem_Decode pkg (Getenv environ "SCW_PUBLIC_KEY") = Some block
  ∧ x509_ParsePKCS1PublicKey pkg (Bytes block) = (Some parsedKey, None).

(** The value handed to [json.Unmarshal] for a claim set. *)
Definition marshalled (claims : MapClaims) : json :=
  fst (json_Marshal (claims !! "application_claim")).

Definition calls_to_key : list call :=
  [ call_os_Getenv "SCW_PUBLIC"; call_Header_Get "SCW_FUNCTIONS_TOKEN";
    call_os_Getenv "SCW_PUBLIC_KEY" ].

Definition calls_to_extract (block : pem_Block) (claims : MapClaims) : list call :=
  (calls_to_verify environ req block
   ++ [ call_json_Marshal (claims !! "application_claim");
        call_json_Unmarshal (marshalled claims) ])%list.

Definition calls_to_match (block : pem_Block) (claims : MapClaims) : list call :=
  (calls_to_extract block claims
   ++ [ call_os_Getenv "SCW_APPLICATION_ID"; call_os_Getenv "SCW_NAMESPACE_ID" ])%list.

Inductive exit_path : option error → list call → Prop :=
  | exit_public :
      Getenv environ "SCW_PUBLIC" = "true" →
      exit_path None [call_os_Getenv "SCW_PUBLIC"]
  | exit_no_token :
      private environ → token_of req = "" →
      exit_path (Some errorEmptyRequestToken)
        [call_os_Getenv "SCW_PUBLIC"; call_Header_Get "SCW_FUNCTIONS_TOKEN"]
  | exit_key_empty :
      private environ → token_of req ≠ "" →
      Getenv environ "SCW_PUBLIC_KEY" = "" →
      exit_path (Some errorInvalidPublicKey) calls_to_key
  | exit_no_block :
      private environ → token_of req ≠ "" →
      Getenv environ "SCW_PUBLIC_KEY" ≠ "" →
      pem_Decode pkg (Getenv environ "SCW_PUBLIC_KEY") = None →
      exit_path (Some errorInvalidPublicKey)
        (calls_to_key ++ [call_pem_Decode (Getenv environ "SCW_PUBLIC_KEY")])%list
  | exit_key_parse block parsedKey err :
      private environ → token_of req ≠ "" →
      Getenv environ "SCW_PUBLIC_KEY" ≠ "" →
      pem_Decode pkg (Getenv environ "SCW_PUBLIC_KEY") = Some block →
      x509_ParsePKCS1PublicKey pkg (Bytes block) = (parsedKey, err) →
      is_Some err ∨ parsedKey = None →
      exit_path (Some errorInvalidPublicKey)
        (calls_to_key ++ [ call_pem_Decode (Getenv environ "SCW_PUBLIC_KEY");
                           call_x509_ParsePKCS1PublicKey (Bytes block);
                           call_log_Print err ])%list
  | exit_token_rejected block parsedKey claims err :
      key_loaded_from block parsedKey →
      parsed pkg req parsedKey = (claims, Some err) →
      exit_path (Some err) (calls_to_verify environ req block)
  | exit_decode_error block parsedKey claims parsedClaims err :
      key_loaded_from block parsedKey →
      parsed pkg req parsedKey = (claims, None) →
      json_Unmarshal (marshalled claims) [] = (parsedClaims, Some err) →
      exit_path (Some err) (calls_to_extract block claims)
  | exit_no_claims block parsedKey claims :
      key_loaded_from block parsedKey →
      parsed pkg req parsedKey = (claims, None) →
      json_Unmarshal (marshalled claims) [] = ([], None) →
      exit_path (Some errorInvalidClaims) (calls_to_extract block claims)
  | exit_no_application_id block parsedKey claims applicationClaims rest :
      key_loaded_from block parsedKey →
      parsed pkg req parsedKey = (claims, None) →
      json_Unmarshal (marshalled claims) [] = (applicationClaims :: rest, None) →
      Getenv environ "SCW_APPLICATION_ID" = "" →
      exit_path (Some errorInvalidApplication) (calls_to_match block claims)
  | exit_no_namespace_id block parsedKey claims applicationClaims rest :
      key_loaded_from block parsedKey →
      parsed pkg req parsedKey = (claims, None) →
      json_Unmarshal (marshalled claims) [] = (applicationClaims :: rest, None) →
      Getenv environ "SCW_APPLICATION_ID" ≠ "" →
      Getenv environ "SCW_NAMESPACE_ID" = "" →
      exit_path (Some errorInvalidNamespace) (calls_to_match block claims)
  | exit_mismatch block parsedKey claims applicationClaims rest :
      key_loaded_from block parsedKey →
      parsed pkg req parsedKey = (claims, None) →
      json_Unmarshal (marshalled claims) [] = (applicationClaims :: rest, None) →
      Getenv environ "SCW_APPLICATION_ID" ≠ "" →
      Getenv environ "SCW_NAMESPACE_ID" ≠ "" →
      NamespaceID applicationClaims ≠ Getenv environ "SCW_NAMESPACE_ID" →
      ApplicationID applicationClaims ≠ Getenv environ "SCW_APPLICATION_ID" →
      exit_path (Some errorInvalidClaims) (calls_to_match block claims)
  | exit_match block parsedKey claims applicationClaims rest :
      key_loaded_from block parsedKey →
      parsed pkg req parsedKey = (claims, None) →
      json_Unmarshal (marshalled claims) [] = (applicationClaims :: rest, None) →
      Getenv environ "SCW_APPLICATION_ID" ≠ "" →
      Getenv environ "SCW_NAMESPACE_ID" ≠ "" →
      NamespaceID applicationClaims = Getenv environ "SCW_NAMESPACE_ID"
      ∨ ApplicationID applicationClaims = Getenv environ "SCW_APPLICATION_ID" →
      exit_path None (calls_to_match block claims).

End Exits.

(** ** The function behind a call

    A call without its arguments, except that reads of the environment
    and of the header are told apart by the name they read. *)
Inductive callee : Type :=
  | fn_os_Getenv (key : string)
  | fn_Header_Get (key : string)
  | fn_pem_Decode
  | fn_x509_ParsePKCS1PublicKey
  | fn_log_Print
  | fn_jwt_ParseWithClaims
  | fn_json_Marshal
  | fn_json_Unmarshal.

Definition callee_of (c : call) : callee :=
  match c with
  | call_os_Getenv key => fn_os_Getenv key
  | call_Header_Get key => fn_Header_Get key
  | call_pem_Decode _ => fn_pem_Decode
  | call_x509_ParsePKCS1PublicKey _ => fn_x509_ParsePKCS1PublicKey
  | call_log_Print _ => fn_log_Print
  | call_jwt_ParseWithClaims _ => fn_jwt_ParseWithClaims
  | call_json_Marshal _ => fn_json_Marshal
  | call_json_Unmarshal _ => fn_json_Unmarshal
  end.

(** ** Parser doubles

    Packages with the key loader of the fixture and a token parser that
    accepts every token and reports [data] as its "application_claim". *)
Module Doubles.

Definition packages (data : json) : Packages := {|
  pem_Decode := pem_Decode Fixture.packages;
  x509_ParsePKCS1PublicKey := x509_ParsePKCS1PublicKey Fixture.packages;
  jwt_ParseWithClaims := fun _ claims _ => (<["application_claim" := data]> claims, None)
|}.

Definition block : pem_Block := {| Type_ := "RSA PUBLIC KEY"; Bytes := "DER" |}.

End Doubles.

(** Unfolding a run of [authenticate] up to the next test, and taking a
    test whose outcome is known. *)
Ltac go_exec :=
  cbv beta iota delta
    [verdict calls run authenticate bind invoke Return ret os_Getenv req_Header_Get
     pem_Decode_ x509_ParsePKCS1PublicKey_ log_Print jwt_ParseWithClaims_
     json_Marshal_ json_Unmarshal_ app].

Ltac go_with H := rewrite H; cbv beta iota delta [app].

(** * Properties *)

(** ** Running [authenticate] stage by stage *)

Lemma eqb_false (s t : string) : s ≠ t → String.eqb s t = false.
Proof. apply String.eqb_neq. Qed.

Section Stages.

Variable pkg : Packages.
Variable environ : gmap string string.
Variable req : http_Request.

Lemma run_public :
  Getenv environ "SCW_PUBLIC" = "true" →
  run (authenticate pkg environ req) = (None, [call_os_Getenv "SCW_PUBLIC"]).
Proof. intros H. go_exec. now go_with H. Qed.

Lemma run_no_token :
  private environ → token_of req = "" →
  run (authenticate pkg environ req)
  = (Some errorEmptyRequestToken,
     [call_os_Getenv "SCW_PUBLIC"; call_Header_Get "SCW_FUNCTIONS_TOKEN"]).
Proof.
  unfold private, token_of. intros Hp Ht. go_exec.
  go_with (eqb_false _ _ Hp). now go_with Ht.
Qed.

Lemma run_key_load_failure :
  private environ → token_of req ≠ "" → key_load_failure pkg environ →
  fst (run (authenticate pkg environ req)) = Some errorInvalidPublicKey.
Proof.
  unfold private, token_of. intros Hp Ht Hk. go_exec.
  go_with (eqb_false _ _ Hp). go_with (eqb_false _ _ Ht).
  destruct (String.eqb_spec (Getenv environ "SCW_PUBLIC_KEY") "") as [He|He];
    [reflexivity|].
  destruct Hk as [H|H|block parsedKey err Hb Hx Hf]; [congruence| |].
  - now go_with H.
  - go_with Hb. go_with Hx.
    destruct err as [e|]; [reflexivity|].
    destruct Hf as [[e He']| ->]; [discriminate|reflexivity].
Qed.

(** From the token parser on: the parser's error goes out as it is, so
    does the decoder's; no claim gives [errorInvalidClaims]; otherwise
    the identity is read and compared. *)
Lemma run_reaches_verify parsedKey :
  reaches_verify pkg environ req parsedKey →
  ∃ block,
    run (authenticate pkg environ req)
    = match parsed pkg req parsedKey with
      | (claims, Some err) => (Some err, calls_to_verify environ req block)
      | (claims, None) =>
          let v := claims !! "application_claim" in
          let data := fst (json_Marshal v) in
          let extract := [call_json_Marshal v; call_json_Unmarshal data] in
          match json_Unmarshal data [] with
          | (_, Some err) =>
              (Some err, calls_to_verify environ req block ++ extract)
          | ([], None) =>
              (Some errorInvalidClaims, calls_to_verify environ req block ++ extract)
          | (applicationClaims :: _, None) =>
              let applicationID := Getenv environ "SCW_APPLICATION_ID" in
              let namespaceID := Getenv environ "SCW_NAMESPACE_ID" in
              ((if String.eqb applicationID "" then Some errorInvalidApplication
                else if String.eqb namespaceID "" then Some errorInvalidNamespace
                else if negb (String.eqb (NamespaceID applicationClaims) namespaceID)
                        && negb (String.eqb (ApplicationID applicationClaims)
                                            applicationID)
                then Some errorInvalidClaims
                else None),
               calls_to_verify environ req block ++ extract
               ++ [call_os_Getenv "SCW_APPLICATION_ID";
                   call_os_Getenv "SCW_NAMESPACE_ID"])
          end
      end%list.
Proof.
  intros (Hp & Ht & Hk & block & Hpem & Hx). exists block.
  unfold private, parsed, calls_to_verify, token_of in *. go_exec.
  go_with (eqb_false _ _ Hp). go_with (eqb_false _ _ Ht).
  go_with (eqb_false _ _ Hk). go_with Hpem. go_with Hx.
  destruct (jwt_ParseWithClaims pkg _ _ _) as [claims [e|]]; [reflexivity|].
  unfold json_Marshal at 1. cbv beta iota delta [app fst].
  destruct (json_Unmarshal _ _) as [[|c l] [e|]]; try reflexivity.
  cbv beta iota delta [app].
  destruct (String.eqb (Getenv environ "SCW_APPLICATION_ID") ""); [reflexivity|].
  destruct (String.eqb (Getenv environ "SCW_NAMESPACE_ID") ""); [reflexivity|].
  destruct (negb _ && negb _); reflexivity.
Qed.

Lemma token_failure_run parsedKey (claims : MapClaims) (err : error) :
  reaches_verify pkg environ req parsedKey →
  parsed pkg req parsedKey = (claims, Some err) →
  verdict pkg environ req = Some err.
Proof.
  intros Hr Hp.
  destruct (run_reaches_verify parsedKey Hr) as [block Hrun].
  unfold verdict. now rewrite Hrun, Hp.
Qed.

End Stages.

(** The flag is the only thing read from "SCW_PUBLIC": two environments
    that differ there, neither saying "true", give the same run. *)
Lemma run_flag_irrelevant pkg (environ environ' : gmap string string) req :
  Getenv environ "SCW_PUBLIC" ≠ "true" →
  Getenv environ' "SCW_PUBLIC" ≠ "true" →
  (∀ key, key ≠ "SCW_PUBLIC" → Getenv environ key = Getenv environ' key) →
  run (authenticate pkg environ req) = run (authenticate pkg environ' req).
Proof.
  intros Hp Hp' Heq. go_exec.
  go_with (eqb_false _ _ Hp). go_with (eqb_false _ _ Hp').
  rewrite <- (Heq "SCW_PUBLIC_KEY"), <- (Heq "SCW_APPLICATION_ID"),
    <- (Heq "SCW_NAMESPACE_ID") by discriminate.
  reflexivity.
Qed.

Lemma absent_header_no_token req :
  Header req !! "Scw_functions_token" = None → token_of req = "".
Proof.
  intros H. unfold token_of, Header_Get.
  change (CanonicalMIMEHeaderKey "SCW_FUNCTIONS_TOKEN") with "Scw_functions_token".
  now rewrite H.
Qed.

(** ** Public functions *)

(** C2. When the runtime is marked public ("SCW_PUBLIC" is "true"),
    [authenticate] returns success for every request and every behaviour
    of the key and token packages, and the only call it makes is the read
    of the flag: the token header is not read, nothing is parsed. *)
Theorem public_bypasses_check pkg (environ : gmap string string) req :
  Getenv environ "SCW_PUBLIC" = "true" →
  verdict pkg environ req = None
  ∧ calls pkg environ req = [call_os_Getenv "SCW_PUBLIC"].
Proof.
  intros H. unfold verdict, calls. now rewrite run_public.
Qed.

Lemma public_bypasses_check_witness :
  verdict Fixture.packages (<["SCW_PUBLIC" := "true"]> Fixture.environ)
    (Fixture.request "not a token") = None
  ∧ calls Fixture.packages (<["SCW_PUBLIC" := "true"]> Fixture.environ)
      (Fixture.request "not a token") = [call_os_Getenv "SCW_PUBLIC"].
Proof. apply public_bypasses_check. vm_compute. reflexivity. Defined.

(** ** Token presence *)

(** C9. For a runtime that is not public, a request whose token header is
    absent or holds the empty string is rejected with
    [errorEmptyRequestToken]; the calls made are the read of the flag and
    the read of the header, so neither the key loader ([pem.Decode],
    [x509.ParsePKCS1PublicKey]) nor the token parser has been called. *)
Theorem missing_token_before_key_and_parser pkg (environ : gmap string string) req :
  private environ →
  Header req !! "Scw_functions_token" = None ∨ token_of req = "" →
  verdict pkg environ req = Some errorEmptyRequestToken
  ∧ calls pkg environ req
    = [call_os_Getenv "SCW_PUBLIC"; call_Header_Get "SCW_FUNCTIONS_TOKEN"]
  ∧ forallb (fun c => negb (loads_key_or_parses_token c)) (calls pkg environ req)
    = true.
Proof.
  intros Hp Ht.
  assert (Ht' : token_of req = "")
    by (destruct Ht; [now apply absent_header_no_token | assumption]).
  unfold verdict, calls. rewrite (run_no_token pkg environ req Hp Ht').
  repeat split.
Qed.

Lemma missing_token_before_key_and_parser_witness :
  verdict Fixture.packages Fixture.environ Fixture.no_token
  = Some errorEmptyRequestToken
  ∧ calls Fixture.packages Fixture.environ Fixture.no_token
    = [call_os_Getenv "SCW_PUBLIC"; call_Header_Get "SCW_FUNCTIONS_TOKEN"]
  ∧ forallb (fun c => negb (loads_key_or_parses_token c))
      (calls Fixture.packages Fixture.environ Fixture.no_token) = true.
Proof.
  apply missing_token_before_key_and_parser.
  - vm_compute. discriminate.
  - left. vm_compute. reflexivity.
Defined.

(** ** Key loading *)

(** C6. Once the key is loaded (the runtime is not public and the request
    carries a token), each of the three failures - the key string is
    empty, [pem.Decode] finds no block, the block does not parse as a
    PKCS#1 RSA public key - gives the verdict [errorInvalidPublicKey],
    whose text is "Invalid public key" whatever error the parser
    reported. *)
Theorem key_load_failure_is_generic pkg (environ : gmap string string) req :
  private environ → token_of req ≠ "" → key_load_failure pkg environ →
  verdict pkg environ req = Some errorInvalidPublicKey
  ∧ Error <$> verdict pkg environ req = Some "Invalid public key".
Proof.
  intros Hp Ht Hk. unfold verdict.
  rewrite (run_key_load_failure pkg environ req Hp Ht Hk). split; reflexivity.
Qed.

Lemma key_load_failure_is_generic_witness :
  verdict Fixture.packages (<["SCW_PUBLIC_KEY" := "PEM of an EC key"]> Fixture.environ)
    (Fixture.request "RS256.ns-1+app-9.signed") = Some errorInvalidPublicKey
  ∧ Error <$> verdict Fixture.packages
                (<["SCW_PUBLIC_KEY" := "PEM of an EC key"]> Fixture.environ)
                (Fixture.request "RS256.ns-1+app-9.signed")
    = Some "Invalid public key".
Proof.
  apply key_load_failure_is_generic.
  - vm_compute. discriminate.
  - vm_compute. discriminate.
  - apply (not_a_pkcs1_key _ _ {| Type_ := "PUBLIC KEY"; Bytes := "SPKI" |} None
             (Some (lib_error "asn1: structure error: tags don't match"))).
    + vm_compute. reflexivity.
    + vm_compute. reflexivity.
    + left. eexists. reflexivity.
Defined.

(** ** Claim extraction and identity match *)

Section Extraction.

Variable pkg : Packages.
Variable environ : gmap string string.
Variable req : http_Request.

Lemma verdict_verified claims :
  verified pkg environ req claims →
  verdict pkg environ req
  = match json_Unmarshal (fst (json_Marshal (claims !! "application_claim"))) [] with
    | (_, Some err) => Some err
    | ([], None) => Some errorInvalidClaims
    | (applicationClaims :: _, None) =>
        if String.eqb (Getenv environ "SCW_APPLICATION_ID") ""
        then Some errorInvalidApplication
        else if String.eqb (Getenv environ "SCW_NAMESPACE_ID") ""
        then Some errorInvalidNamespace
        else if negb (String.eqb (NamespaceID applicationClaims)
                                 (Getenv environ "SCW_NAMESPACE_ID"))
                && negb (String.eqb (ApplicationID applicationClaims)
                                    (Getenv environ "SCW_APPLICATION_ID"))
        then Some errorInvalidClaims
        else None
    end.
Proof.
  intros (k & Hr & Hparsed).
  destruct (run_reaches_verify pkg environ req k Hr) as [block Hrun].
  unfold verdict. rewrite Hrun, Hparsed. cbv zeta.
  destruct (json_Unmarshal _ _) as [[|c l] [e|]]; reflexivity.
Qed.

Lemma verdict_first_claim c :
  first_claim pkg environ req c →
  Getenv environ "SCW_APPLICATION_ID" ≠ "" →
  Getenv environ "SCW_NAMESPACE_ID" ≠ "" →
  verdict pkg environ req
  = if negb (String.eqb (NamespaceID c) (Getenv environ "SCW_NAMESPACE_ID"))
       && negb (String.eqb (ApplicationID c) (Getenv environ "SCW_APPLICATION_ID"))
    then Some errorInvalidClaims else None.
Proof.
  intros (claims & rest & Hv & Hdec) Ha Hn.
  rewrite (verdict_verified claims Hv), Hdec.
  now rewrite (eqb_false _ _ Ha), (eqb_false _ _ Hn).
Qed.

End Extraction.

(** C7. For a verified claim set in which "application_claim" is absent,
    or in which its value decodes to an empty sequence, the verdict is
    [errorInvalidClaims].  An absent field is marshalled as [null], which
    decodes to the empty sequence without error. *)
Theorem no_application_claim_rejected pkg (environ : gmap string string) req
    (claims : MapClaims) :
  verified pkg environ req claims →
  claims !! "application_claim" = None
  ∨ json_Unmarshal (fst (json_Marshal (claims !! "application_claim"))) [] = ([], None) →
  verdict pkg environ req = Some errorInvalidClaims
  ∧ json_Unmarshal (fst (json_Marshal None)) [] = ([], None).
Proof.
  intros Hv H. split; [|reflexivity].
  rewrite (verdict_verified pkg environ req claims Hv).
  destruct H as [-> | ->]; reflexivity.
Qed.

Lemma fixture_reaches_verify tokenString :
  tokenString ≠ "" →
  reaches_verify Fixture.packages Fixture.environ (Fixture.request tokenString)
    Fixture.key.
Proof.
  intros Ht. split; [vm_compute; discriminate|]. split; [exact Ht|].
  split; [vm_compute; discriminate|].
  exists {| Type_ := "RSA PUBLIC KEY"; Bytes := "DER" |}.
  split; vm_compute; reflexivity.
Defined.

Lemma no_application_claim_rejected_witness :
  (verdict Fixture.packages Fixture.environ (Fixture.request "RS256.absent.signed")
   = Some errorInvalidClaims
   ∧ json_Unmarshal (fst (json_Marshal None)) [] = ([], None))
  ∧ (verdict Fixture.packages Fixture.environ (Fixture.request "RS256.empty.signed")
     = Some errorInvalidClaims
     ∧ json_Unmarshal (fst (json_Marshal None)) [] = ([], None)).
Proof.
  split.
  - apply (no_application_claim_rejected _ _ _ {[ "sub" := JString "someone" ]}).
    + exists Fixture.key. split.
      * apply fixture_reaches_verify. discriminate.
      * vm_compute. reflexivity.
    + left. vm_compute. reflexivity.
  - apply (no_application_claim_rejected _ _ _ {[ "application_claim" := JArray [] ]}).
    + exists Fixture.key. split.
      * apply fixture_reaches_verify. discriminate.
      * vm_compute. reflexivity.
    + right. vm_compute. reflexivity.
Defined.

(** C1. When the first application claim has been decoded and the
    runtime's ApplicationID and NamespaceID are both non-empty, the verdict
    is success exactly when the claim's NamespaceID equals the runtime's
    NamespaceID or the claim's ApplicationID equals the runtime's
    ApplicationID.  In particular a claim with the right NamespaceID and
    another ApplicationID succeeds. *)
Theorem match_succeeds_iff pkg (environ : gmap string string) req c :
  first_claim pkg environ req c →
  Getenv environ "SCW_APPLICATION_ID" ≠ "" →
  Getenv environ "SCW_NAMESPACE_ID" ≠ "" →
  (verdict pkg environ req = None
   ↔ NamespaceID c = Getenv environ "SCW_NAMESPACE_ID"
     ∨ ApplicationID c = Getenv environ "SCW_APPLICATION_ID")
  ∧ (NamespaceID c = Getenv environ "SCW_NAMESPACE_ID" →
     ApplicationID c ≠ Getenv environ "SCW_APPLICATION_ID" →
     verdict pkg environ req = None).
Proof.
  intros Hc Ha Hn. rewrite (verdict_first_claim pkg environ req c Hc Ha Hn).
  destruct (String.eqb_spec (NamespaceID c) (Getenv environ "SCW_NAMESPACE_ID"));
    destruct (String.eqb_spec (ApplicationID c) (Getenv environ "SCW_APPLICATION_ID"));
    cbn [negb andb]; intuition (congruence || discriminate).
Qed.

Lemma fixture_first_claim (set ns app : string) :
  jwt.ParseWithClaims Fixture.primitives ("RS256." ++ set ++ ".signed") ∅
    (keyFunc Fixture.key)
  = ({[ "application_claim" := JArray [Fixture.claim ns app] ]}, None) →
  first_claim Fixture.packages Fixture.environ
    (Fixture.request ("RS256." ++ set ++ ".signed"))
    {| NamespaceID := ns; ApplicationID := app |}.
Proof.
  intros H. exists {[ "application_claim" := JArray [Fixture.claim ns app] ]}, [].
  split.
  - exists Fixture.key. split; [apply fixture_reaches_verify; discriminate|exact H].
  - rewrite lookup_singleton_eq. reflexivity.
Defined.

Lemma match_succeeds_iff_witness :
  (verdict Fixture.packages Fixture.environ (Fixture.request "RS256.ns-1+app-9.signed")
   = None
   ↔ "ns-1" = Getenv Fixture.environ "SCW_NAMESPACE_ID"
     ∨ "app-9" = Getenv Fixture.environ "SCW_APPLICATION_ID")
  ∧ ("ns-1" = Getenv Fixture.environ "SCW_NAMESPACE_ID" →
     "app-9" ≠ Getenv Fixture.environ "SCW_APPLICATION_ID" →
     verdict Fixture.packages Fixture.environ (Fixture.request "RS256.ns-1+app-9.signed")
     = None).
Proof.
  apply (match_succeeds_iff Fixture.packages Fixture.environ
           (Fixture.request "RS256.ns-1+app-9.signed")
           {| NamespaceID := "ns-1"; ApplicationID := "app-9" |}).
  - apply (fixture_first_claim "ns-1+app-9" "ns-1" "app-9"). vm_compute. reflexivity.
  - vm_compute. discriminate.
  - vm_compute. discriminate.
Defined.

(** C5 (as the code has it).  When the first decoded claim matches neither
    the runtime's NamespaceID nor its ApplicationID (both non-empty), the
    verdict is [errorInvalidClaims], the error value that an empty claim
    sequence gives as well. *)
Theorem mismatch_gives_errorInvalidClaims pkg (environ : gmap string string) req c :
  first_claim pkg environ req c →
  Getenv environ "SCW_APPLICATION_ID" ≠ "" →
  Getenv environ "SCW_NAMESPACE_ID" ≠ "" →
  NamespaceID c ≠ Getenv environ "SCW_NAMESPACE_ID" →
  ApplicationID c ≠ Getenv environ "SCW_APPLICATION_ID" →
  verdict pkg environ req = Some errorInvalidClaims.
Proof.
  intros Hc Ha Hn Hns Happ.
  rewrite (verdict_first_claim pkg environ req c Hc Ha Hn).
  now rewrite (eqb_false _ _ Hns), (eqb_false _ _ Happ).
Qed.

Lemma mismatch_gives_errorInvalidClaims_witness :
  verdict Fixture.packages Fixture.environ (Fixture.request "RS256.ns-2+app-9.signed")
  = Some errorInvalidClaims.
Proof.
  apply (mismatch_gives_errorInvalidClaims Fixture.packages Fixture.environ
           (Fixture.request "RS256.ns-2+app-9.signed")
           {| NamespaceID := "ns-2"; ApplicationID := "app-9" |}).
  - apply (fixture_first_claim "ns-2+app-9" "ns-2" "app-9"). vm_compute. reflexivity.
  - vm_compute. discriminate.
  - vm_compute. discriminate.
  - vm_compute. discriminate.
  - vm_compute. discriminate.
Defined.

(** C5, as stated, fails: with runtime identity {app-1, ns-1}, the token
    whose only claim is {ns-2, app-9} and the token whose claim array is
    empty get the same verdict; a mismatch cannot be told from invalid
    claims. *)
Lemma mismatch_same_verdict_as_empty_claims :
  first_claim Fixture.packages Fixture.environ
    (Fixture.request "RS256.ns-2+app-9.signed")
    {| NamespaceID := "ns-2"; ApplicationID := "app-9" |}
  ∧ verdict Fixture.packages Fixture.environ (Fixture.request "RS256.ns-2+app-9.signed")
    = Some errorInvalidClaims
  ∧ verdict Fixture.packages Fixture.environ (Fixture.request "RS256.empty.signed")
    = Some errorInvalidClaims
  ∧ ¬ (verdict Fixture.packages Fixture.environ
         (Fixture.request "RS256.ns-2+app-9.signed")
       ≠ verdict Fixture.packages Fixture.environ
           (Fixture.request "RS256.empty.signed")).
Proof.
  split; [apply (fixture_first_claim "ns-2+app-9" "ns-2" "app-9"); vm_compute; reflexivity|].
  repeat split; try (vm_compute; reflexivity).
  intros H. apply H. vm_compute. reflexivity.
Qed.

(** ** Decoding errors *)

Section Decoder.

Lemma decode_member_error st kv :
  no_other_error (snd st) → no_other_error (snd (decode_member st kv)).
Proof.
  intros H. unfold decode_member.
  destruct (field_of_key (fst kv)); [|exact H].
  destruct (snd kv); try exact H;
    (destruct st as [c [e|]]; [exact H|]; intros e' [= <-]; reflexivity).
Qed.

Lemma decode_members_error members st :
  no_other_error (snd st) →
  no_other_error (snd (fold_left decode_member members st)).
Proof.
  revert st. induction members as [|kv members IH]; intros st H; [exact H|].
  cbn [fold_left]. apply IH. now apply decode_member_error.
Qed.

Lemma decode_element_error saved v :
  no_other_error saved → no_other_error (snd (decode_element saved v)).
Proof.
  intros H. destruct v; cbn [decode_element snd]; try exact H;
    try (destruct saved as [e|]; [exact H|]; intros e' [= <-]; reflexivity).
  now apply decode_members_error.
Qed.

Lemma decode_elements_error vs saved :
  no_other_error saved → no_other_error (snd (decode_elements saved vs)).
Proof.
  revert saved. induction vs as [|v vs IH]; intros saved H; [exact H|].
  cbn [decode_elements].
  pose proof (decode_element_error saved v H) as H1.
  destruct (decode_element saved v) as [c saved'].
  pose proof (IH saved' H1) as H2.
  destruct (decode_elements saved' vs) as [cs saved'']. exact H2.
Qed.

(** Every error of the decoder is an [UnmarshalTypeError]. *)
Lemma json_Unmarshal_error data into l e :
  json_Unmarshal data into = (l, Some e) → is_UnmarshalTypeError e = true.
Proof.
  destruct data; cbn [json_Unmarshal]; try (intros [= _ <-]; reflexivity);
    try discriminate.
  intros H. apply (decode_elements_error elems None); [discriminate|].
  now rewrite H.
Qed.

(** A saved error is never dropped. *)
Lemma decode_member_keeps st kv :
  is_Some (snd st) → is_Some (snd (decode_member st kv)).
Proof.
  intros H. unfold decode_member.
  destruct (field_of_key (fst kv)); [|exact H].
  destruct (snd kv); try exact H;
    (destruct st as [c [e|]]; [eexists; reflexivity| destruct H; discriminate]).
Qed.

Lemma decode_members_keeps members st :
  is_Some (snd st) → is_Some (snd (fold_left decode_member members st)).
Proof.
  revert st. induction members as [|kv members IH]; intros st H; [exact H|].
  cbn [fold_left]. apply IH. now apply decode_member_keeps.
Qed.

Lemma decode_members_shape members st :
  snd st = None →
  (snd (fold_left decode_member members st) = None
   ↔ forallb member_has_shape members = true).
Proof.
  revert st. induction members as [|kv members IH]; intros st Hst.
  - cbn. tauto.
  - cbn [fold_left forallb]. rewrite andb_true_iff.
    unfold decode_member at 2, member_has_shape at 1.
    destruct (field_of_key (fst kv)) as [f|].
    + destruct (snd kv) eqn:Hv;
        try (rewrite (IH _ Hst); tauto);
        try (rewrite (IH (set_field f s (fst st), snd st) Hst); tauto);
        (split; [|intros [? _]; discriminate]);
        intros H; exfalso;
        match type of H with
        | snd (fold_left _ _ ?st') = None =>
            destruct (decode_members_keeps members st') as [e He];
            [rewrite Hst; eexists; reflexivity | congruence]
        end.
    + rewrite (IH _ Hst). tauto.
Qed.

Lemma decode_element_keeps saved v :
  is_Some saved → is_Some (snd (decode_element saved v)).
Proof.
  intros H. destruct v; cbn [decode_element snd]; try exact H;
    try (destruct saved; [eexists; reflexivity|destruct H; discriminate]).
  now apply decode_members_keeps.
Qed.

Lemma decode_elements_keeps vs saved :
  is_Some saved → is_Some (snd (decode_elements saved vs)).
Proof.
  revert saved. induction vs as [|v vs IH]; intros saved H; [exact H|].
  cbn [decode_elements].
  pose proof (decode_element_keeps saved v H) as H1.
  destruct (decode_element saved v) as [c saved'].
  pose proof (IH saved' H1) as H2.
  destruct (decode_elements saved' vs) as [cs saved'']. exact H2.
Qed.

Lemma decode_element_shape v :
  snd (decode_element None v) = None ↔ element_has_shape v = true.
Proof.
  destruct v; cbn [decode_element element_has_shape snd saveError];
    try (split; [discriminate | discriminate]); try tauto.
  now apply decode_members_shape.
Qed.

Lemma decode_elements_shape vs :
  snd (decode_elements None vs) = None ↔ forallb element_has_shape vs = true.
Proof.
  induction vs as [|v vs IH]; [cbn; tauto|].
  cbn [decode_elements forallb]. rewrite andb_true_iff.
  pose proof (decode_element_shape v) as Hv.
  destruct (decode_element None v) as [c [e|]]; cbn [snd] in Hv.
  - pose proof (decode_elements_keeps vs (Some e) (ltac:(eexists; reflexivity))) as Hk.
    destruct (decode_elements (Some e) vs) as [cs saved'']. cbn [snd] in *.
    split; [intros ->; destruct Hk; discriminate|].
    intros [H _]. apply Hv in H. discriminate.
  - destruct (decode_elements None vs) as [cs saved'']. cbn [snd] in *.
    rewrite <- IH. tauto.
Qed.

(** The decoder reports an error exactly on the documents that do not
    have the shape of a sequence of claims. *)
Lemma json_Unmarshal_shape data into :
  snd (json_Unmarshal data into) = None ↔ sequence_of_claims data = true.
Proof.
  destruct data; cbn [json_Unmarshal sequence_of_claims snd];
    try (split; [discriminate | discriminate]); try tauto.
  apply decode_elements_shape.
Qed.

End Decoder.

(** C8 (as the code has it).  For a verified claim set whose
    "application_claim" value is present and is not a sequence of
    ApplicationClaim records, the verdict is the error of [json.Unmarshal]
    itself, an [UnmarshalTypeError]; it is not [errorInvalidClaims]. *)
Theorem malformed_claims_give_decoder_error pkg (environ : gmap string string) req
    (claims : MapClaims) (data : json) :
  verified pkg environ req claims →
  claims !! "application_claim" = Some data →
  sequence_of_claims data = false →
  ∃ e, verdict pkg environ req = Some e
       ∧ snd (json_Unmarshal data []) = Some e
       ∧ is_UnmarshalTypeError e = true
       ∧ e ≠ errorInvalidClaims.
Proof.
  intros Hv Hd Hshape.
  rewrite (verdict_verified pkg environ req claims Hv), Hd.
  change (fst (json_Marshal (Some data))) with data.
  destruct (json_Unmarshal data []) as [l [e|]] eqn:Hu.
  - exists e. pose proof (json_Unmarshal_error _ _ _ _ Hu) as He.
    split; [destruct l; reflexivity|]. split; [reflexivity|].
    split; [exact He|]. intros ->. discriminate.
  - exfalso. pose proof (proj1 (json_Unmarshal_shape data [])) as H.
    rewrite Hu in H. rewrite (H eq_refl) in Hshape. discriminate.
Qed.

Lemma malformed_claims_give_decoder_error_witness :
  ∃ e, verdict Fixture.packages Fixture.environ (Fixture.request "RS256.string.signed")
       = Some e
       ∧ snd (json_Unmarshal (JString "ns-1") []) = Some e
       ∧ is_UnmarshalTypeError e = true
       ∧ e ≠ errorInvalidClaims.
Proof.
  apply (malformed_claims_give_decoder_error Fixture.packages Fixture.environ
           (Fixture.request "RS256.string.signed")
           {[ "application_claim" := JString "ns-1" ]}).
  - exists Fixture.key. split.
    + apply fixture_reaches_verify. discriminate.
    + vm_compute. reflexivity.
  - vm_compute. reflexivity.
  - vm_compute. reflexivity.
Defined.

(** C8, as stated, fails: a correctly signed token whose
    "application_claim" is the string "ns-1" is rejected with the decoder's
    error, not with [errorInvalidClaims]. *)
Lemma malformed_claims_not_errorInvalidClaims :
  verified Fixture.packages Fixture.environ (Fixture.request "RS256.string.signed")
    {[ "application_claim" := JString "ns-1" ]}
  ∧ verdict Fixture.packages Fixture.environ (Fixture.request "RS256.string.signed")
    = Some (json_UnmarshalTypeError "string" "[]lambda.ApplicationClaim" "" "")
  ∧ verdict Fixture.packages Fixture.environ (Fixture.request "RS256.string.signed")
    ≠ Some errorInvalidClaims.
Proof.
  split; [|split].
  - exists Fixture.key. split.
    + apply fixture_reaches_verify. discriminate.
    + vm_compute. reflexivity.
  - vm_compute. reflexivity.
  - vm_compute. discriminate.
Qed.

(** ** Token verification *)

(** C4 (as the code has it).  When the token parser reports a failure,
    the verdict is the parser's error value itself, and the parser call is
    the last call made: claims are not extracted, the identity is not
    read, nothing is compared. *)
Theorem token_failure_propagates pkg (environ : gmap string string) req
    parsedKey (claims : MapClaims) (err : error) :
  reaches_verify pkg environ req parsedKey →
  parsed pkg req parsedKey = (claims, Some err) →
  verdict pkg environ req = Some err
  ∧ last (calls pkg environ req) = Some (call_jwt_ParseWithClaims (token_of req)).
Proof.
  intros Hr Hp.
  destruct (run_reaches_verify pkg environ req parsedKey Hr) as [block Hrun].
  unfold verdict, calls. rewrite Hrun, Hp. split; reflexivity.
Qed.

Lemma token_failure_propagates_witness :
  verdict Fixture.packages Fixture.environ (Fixture.request "RS256.ns-1+app-9.forged")
  = Some (jwt_ValidationError (Some (lib_error "crypto/rsa: verification error"))
            jwt.ValidationErrorSignatureInvalid "")
  ∧ last (calls Fixture.packages Fixture.environ
            (Fixture.request "RS256.ns-1+app-9.forged"))
    = Some (call_jwt_ParseWithClaims
              (token_of (Fixture.request "RS256.ns-1+app-9.forged"))).
Proof.
  apply (token_failure_propagates Fixture.packages Fixture.environ
           (Fixture.request "RS256.ns-1+app-9.forged") Fixture.key
           {[ "application_claim" := JArray [Fixture.claim "ns-1" "app-9"] ]}).
  - apply fixture_reaches_verify. discriminate.
  - vm_compute. reflexivity.
Defined.

(** C4, as stated, fails: there is no error value for an invalid token in
    [auth.go].  A token that is not in compact form and a token with a bad
    signature are rejected with two different errors of the parser, neither
    declared by [auth.go], each carrying the parser's own text. *)
Lemma token_failure_is_raw_parser_error :
  let malformed :=
    verdict Fixture.packages Fixture.environ (Fixture.request "abc") in
  let forged :=
    verdict Fixture.packages Fixture.environ (Fixture.request "RS256.ns-1+app-9.forged") in
  malformed = Some (jwt_ValidationError None jwt.ValidationErrorMalformed
                      "token contains an invalid number of segments")
  ∧ forged = Some (jwt_ValidationError
                     (Some (lib_error "crypto/rsa: verification error"))
                     jwt.ValidationErrorSignatureInvalid "")
  ∧ malformed ≠ forged
  ∧ declared_in_auth <$> malformed = Some false
  ∧ declared_in_auth <$> forged = Some false
  ∧ Error <$> malformed = Some "token contains an invalid number of segments"
  ∧ Error <$> forged = Some "crypto/rsa: verification error".
Proof.
  cbv zeta. repeat split; try (vm_compute; reflexivity). vm_compute. discriminate.
Qed.

(** ** The signing algorithm of a token *)

Section Algorithm.

Variable P : jwt.Primitives.

(** The registry maps the names of the RSA family, and no other name, to
    the methods that work with an RSA public key. *)
Lemma GetSigningMethod_family alg m :
  jwt.GetSigningMethod alg = Some m → jwt.takes_rsa_key m = jwt.rsa_family alg.
Proof.
  unfold jwt.GetSigningMethod, jwt.signingMethods, jwt.rsa_family.
  cbn [List.find fst snd existsb].
  repeat match goal with
         | |- context [String.eqb alg ?s] =>
             destruct (String.eqb_spec alg s) as [->|?];
             [cbn; intros [= <-]; reflexivity|]
         end.
  cbn. discriminate.
Qed.

(** Every method outside that family refuses an RSA public key. *)
Lemma Verify_refuses_rsa_key m signingString signature k :
  jwt.takes_rsa_key m = false →
  is_Some (jwt.Verify P m signingString signature (any_rsa_PublicKey k)).
Proof.
  destruct m; cbn [jwt.takes_rsa_key jwt.Verify]; try discriminate; intros _.
  - eexists; reflexivity.
  - destruct (jwt.DecodeSegment P signature); eexists; reflexivity.
  - eexists; reflexivity.
Qed.

Lemma ParseWithClaims_rejects_other_algorithms tokenString claims k :
  (∀ alg, jwt.declared_alg P tokenString = Some alg → jwt.rsa_family alg = false) →
  is_Some (snd (jwt.ParseWithClaims P tokenString claims (keyFunc k))).
Proof.
  unfold jwt.declared_alg, jwt.ParseWithClaims, jwt.ParseUnverified. intros H.
  destruct (jwt.Split tokenString) as [|h [|c [|s [|x l]]]];
    try (eexists; reflexivity).
  cbn [length Nat.eqb negb nth].
  destruct (jwt.DecodeSegment P h) as [e|headerBytes].
  { destruct (String.prefix _ _); eexists; reflexivity. }
  destruct (jwt.decode_Header P headerBytes) as [e|header];
    [eexists; reflexivity|].
  destruct (jwt.DecodeSegment P c) as [e|claimBytes]; [eexists; reflexivity|].
  destruct (jwt.decode_Claims P claimBytes claims) as [e|claims'];
    [eexists; reflexivity|].
  destruct (header !! "alg") as [[| | |method| |]|]; try (eexists; reflexivity).
  specialize (H method eq_refl).
  destruct (jwt.GetSigningMethod method) as [m|] eqn:Hm; [|eexists; reflexivity].
  rewrite <- (GetSigningMethod_family method m Hm) in H.
  cbn [keyFunc Method nth].
  destruct (Verify_refuses_rsa_key m (h ++ "." ++ c) s k H) as [e ->].
  cbn [fst snd].
  match goal with
  | |- context [N.eqb (N.lor ?flags jwt.ValidationErrorSignatureInvalid) 0] =>
      destruct (N.eqb_spec (N.lor flags jwt.ValidationErrorSignatureInvalid) 0)
        as [Hz|Hz]
  end.
  - apply N.lor_eq_0_iff in Hz. destruct Hz as [_ Hz]. discriminate.
  - eexists; reflexivity.
Qed.

End Algorithm.

(** C3. With the token parser of jwt-go, a token whose header does not
    declare an algorithm of the RSA family (RS256, RS384, RS512, PS256,
    PS384, PS512) is never accepted by a runtime that is not public: the
    request is rejected, and when the parser is reached it is the parser
    that fails.  The key function returns the configured RSA key for every
    token, so the header has no part in the choice of the key; a method of
    another family then refuses that key. *)
Theorem non_rsa_algorithm_rejected (P : jwt.Primitives) pkg
    (environ : gmap string string) req :
  jwt_ParseWithClaims pkg = jwt.ParseWithClaims P →
  private environ →
  (∀ alg, jwt.declared_alg P (token_of req) = Some alg → jwt.rsa_family alg = false) →
  (∃ e, verdict pkg environ req = Some e)
  ∧ (∀ parsedKey, reaches_verify pkg environ req parsedKey →
       ∃ e, snd (parsed pkg req parsedKey) = Some e
            ∧ verdict pkg environ req = Some e)
  ∧ (∀ parsedKey token token',
       keyFunc parsedKey token = (any_rsa_PublicKey parsedKey, None)
       ∧ keyFunc parsedKey token = keyFunc parsedKey token').
Proof.
  intros Hpkg Hp Halg.
  assert (Hrej : ∀ k, ∃ claims e, parsed pkg req k = (claims, Some e)).
  { intros k. unfold parsed. rewrite Hpkg.
    destruct (ParseWithClaims_rejects_other_algorithms P (token_of req) ∅ k Halg)
      as [e He].
    destruct (jwt.ParseWithClaims P (token_of req) ∅ (keyFunc k)) as [claims o].
    cbn [snd] in He. subst o. now exists claims, e. }
  split; [|split].
  - unfold private, verdict in *. go_exec. go_with (eqb_false _ _ Hp).
    destruct (String.eqb _ ""); [eexists; reflexivity|].
    destruct (String.eqb _ ""); [eexists; reflexivity|].
    destruct (pem_Decode _ _) as [block|]; [|eexists; reflexivity].
    destruct (x509_ParsePKCS1PublicKey _ _) as [[k|] [e|]];
      try (eexists; reflexivity).
    destruct (Hrej k) as (claims & e & He). unfold parsed, token_of in He.
    go_with He. eexists; reflexivity.
  - intros k Hr. destruct (Hrej k) as (claims & e & He). exists e.
    rewrite He. split; [reflexivity|].
    apply (token_failure_run pkg environ req k claims e Hr He).
  - intros k token token'. split; reflexivity.
Qed.

Lemma non_rsa_algorithm_rejected_witness :
  (∃ e, verdict Fixture.packages Fixture.environ
          (Fixture.request "HS256.ns-1+app-9.signed") = Some e)
  ∧ (∀ parsedKey,
       reaches_verify Fixture.packages Fixture.environ
         (Fixture.request "HS256.ns-1+app-9.signed") parsedKey →
       ∃ e, snd (parsed Fixture.packages (Fixture.request "HS256.ns-1+app-9.signed")
                   parsedKey) = Some e
            ∧ verdict Fixture.packages Fixture.environ
                (Fixture.request "HS256.ns-1+app-9.signed") = Some e)
  ∧ (∀ parsedKey token token',
       keyFunc parsedKey token = (any_rsa_PublicKey parsedKey, None)
       ∧ keyFunc parsedKey token = keyFunc parsedKey token').
Proof.
  apply (non_rsa_algorithm_rejected Fixture.primitives).
  - reflexivity.
  - vm_compute. discriminate.
  - intros alg H. vm_compute in H. injection H as <-. reflexivity.
Defined.

(** * Further properties of [authenticate] *)

(** ** Every run leaves by one of the exits *)

Lemma run_exit pkg (environ : gmap string string) req v cs :
  run (authenticate pkg environ req) = (v, cs) → exit_path pkg environ req v cs.
Proof.
  go_exec.
  destruct (String.eqb_spec (Getenv environ "SCW_PUBLIC") "true") as [Hp|Hp].
  { intros [= <- <-]. now apply exit_public. }
  cbv beta iota delta [app].
  destruct (String.eqb_spec (Header_Get (Header req) "SCW_FUNCTIONS_TOKEN") "")
    as [Ht|Ht].
  { intros [= <- <-]. now apply exit_no_token. }
  cbv beta iota delta [app].
  destruct (String.eqb_spec (Getenv environ "SCW_PUBLIC_KEY") "") as [Hk|Hk].
  { intros [= <- <-]. now apply exit_key_empty. }
  cbv beta iota delta [app].
  destruct (pem_Decode pkg (Getenv environ "SCW_PUBLIC_KEY")) as [block|] eqn:Hb;
    cbv beta iota delta [app]; [|intros [= <- <-]; now apply exit_no_block].
  destruct (x509_ParsePKCS1PublicKey pkg (Bytes block)) as [parsedKey err] eqn:Hx.
  destruct err as [e|]; cbv beta iota delta [app].
  { intros [= <- <-].
    apply (exit_key_parse _ _ _ block parsedKey (Some e)); auto;
      left; now exists e. }
  destruct parsedKey as [k|]; cbv beta iota delta [app].
  2:{ intros [= <- <-]. apply (exit_key_parse _ _ _ block None None); auto. }
  assert (Hl : key_loaded_from pkg environ req block k) by (repeat split; assumption).
  destruct (jwt_ParseWithClaims pkg _ _ _) as [claims err] eqn:Hparsed.
  change (parsed pkg req k = (claims, err)) in Hparsed.
  destruct err as [e|]; cbv beta iota delta [app].
  { intros [= <- <-]. now apply (exit_token_rejected _ _ _ block k claims e). }
  unfold json_Marshal at 1. cbv beta iota delta [app].
  change (default JNull (claims !! "application_claim")) with (marshalled claims).
  destruct (json_Unmarshal (marshalled claims) []) as [parsedClaims err] eqn:Hu.
  destruct err as [e|]; cbv beta iota delta [app].
  { intros [= <- <-].
    now apply (exit_decode_error _ _ _ block k claims parsedClaims e). }
  destruct parsedClaims as [|c rest]; cbv beta iota delta [app].
  { intros [= <- <-]. now apply (exit_no_claims _ _ _ block k claims). }
  destruct (String.eqb_spec (Getenv environ "SCW_APPLICATION_ID") "") as [Ha|Ha].
  { intros [= <- <-].
    now apply (exit_no_application_id _ _ _ block k claims c rest). }
  destruct (String.eqb_spec (Getenv environ "SCW_NAMESPACE_ID") "") as [Hn|Hn].
  { intros [= <- <-].
    now apply (exit_no_namespace_id _ _ _ block k claims c rest). }
  destruct (String.eqb_spec (NamespaceID c) (Getenv environ "SCW_NAMESPACE_ID"))
    as [Hns|Hns];
    destruct (String.eqb_spec (ApplicationID c) (Getenv environ "SCW_APPLICATION_ID"))
      as [Happ|Happ]; cbn [negb andb]; intros [= <- <-];
    first [ now apply (exit_mismatch _ _ _ block k claims c rest)
          | apply (exit_match _ _ _ block k claims c rest); auto ].
Qed.

Lemma run_exit_path pkg (environ : gmap string string) req :
  exit_path pkg environ req (verdict pkg environ req) (calls pkg environ req).
Proof.
  apply run_exit. unfold verdict, calls.
  now destruct (run (authenticate pkg environ req)).
Qed.

Lemma key_loaded_from_reaches pkg (environ : gmap string string) req block k :
  key_loaded_from pkg environ req block k → reaches_verify pkg environ req k.
Proof.
  intros (Hp & Ht & Hk & Hb & Hx). repeat split; try assumption.
  now exists block.
Qed.

(** Case analysis on the exit a run takes. *)
Ltac by_exit pkg environ req :=
  let Hx := fresh "Hexit" in
  let v := fresh "v" in
  let cs := fresh "cs" in
  pose proof (run_exit_path pkg environ req) as Hx;
  remember (verdict pkg environ req) as v;
  remember (calls pkg environ req) as cs;
  destruct Hx.

Lemma loaded_first_claim pkg (environ : gmap string string) req block k claims c rest :
  key_loaded_from pkg environ req block k →
  parsed pkg req k = (claims, None) →
  json_Unmarshal (marshalled claims) [] = (c :: rest, None) →
  first_claim pkg environ req c.
Proof.
  intros Hl Hp Hu. exists claims, rest. split; [|exact Hu].
  exists k. split; [now apply (key_loaded_from_reaches _ _ _ block)|exact Hp].
Qed.

Lemma token_of_request tokenString :
  token_of (Fixture.request tokenString) = tokenString.
Proof.
  unfold token_of, Header_Get, Fixture.request. cbn [Header].
  change (CanonicalMIMEHeaderKey "SCW_FUNCTIONS_TOKEN") with "Scw_functions_token".
  now rewrite lookup_singleton_eq.
Defined.

(** With a parser double, a request with any non-empty token gets as far
    as its first claim, in every private environment whose key is the
    fixture's. *)
Lemma double_first_claim (environ : gmap string string) data c rest tokenString :
  Getenv environ "SCW_PUBLIC" ≠ "true" →
  Getenv environ "SCW_PUBLIC_KEY" = "PEM" →
  tokenString ≠ "" →
  json_Unmarshal data [] = (c :: rest, None) →
  first_claim (Doubles.packages data) environ (Fixture.request tokenString) c.
Proof.
  intros Hp Hk Ht Hu. exists {[ "application_claim" := data ]}, rest. split.
  - exists Fixture.key. split.
    + split; [exact Hp|]. split; [now rewrite token_of_request|].
      split; [rewrite Hk; discriminate|].
      exists Doubles.block. rewrite Hk. split; reflexivity.
    + unfold parsed. cbn. now rewrite insert_empty.
  - rewrite lookup_singleton_eq. exact Hu.
Defined.

(** ** Runtime identity *)

(** X1. Once a first claim is decoded, an empty "SCW_APPLICATION_ID" gives
    [errorInvalidApplication], whatever "SCW_NAMESPACE_ID" holds and
    whatever the claim says: the application id is tested first. *)
Theorem missing_application_id pkg (environ : gmap string string) req c :
  first_claim pkg environ req c →
  Getenv environ "SCW_APPLICATION_ID" = "" →
  verdict pkg environ req = Some errorInvalidApplication.
Proof.
  intros (claims & rest & Hv & Hdec) Ha.
  rewrite (verdict_verified pkg environ req claims Hv), Hdec, Ha. reflexivity.
Qed.

Lemma missing_application_id_witness :
  verdict (Doubles.packages (JArray [Fixture.claim "ns-1" "app-1"]))
    (delete "SCW_NAMESPACE_ID" (delete "SCW_APPLICATION_ID" Fixture.environ))
    (Fixture.request "token")
  = Some errorInvalidApplication.
Proof.
  apply (missing_application_id _ _ _ {| NamespaceID := "ns-1"; ApplicationID := "app-1" |}).
  - apply (double_first_claim _ _ _ []).
    + vm_compute. discriminate.
    + vm_compute. reflexivity.
    + discriminate.
    + vm_compute. reflexivity.
  - vm_compute. reflexivity.
Defined.

(** X2. Once a first claim is decoded and "SCW_APPLICATION_ID" is set, an
    empty "SCW_NAMESPACE_ID" gives [errorInvalidNamespace], also when the
    claim's ApplicationID is the runtime's. *)
Theorem missing_namespace_id pkg (environ : gmap string string) req c :
  first_claim pkg environ req c →
  Getenv environ "SCW_APPLICATION_ID" ≠ "" →
  Getenv environ "SCW_NAMESPACE_ID" = "" →
  verdict pkg environ req = Some errorInvalidNamespace.
Proof.
  intros (claims & rest & Hv & Hdec) Ha Hn.
  rewrite (verdict_verified pkg environ req claims Hv), Hdec, Hn.
  now rewrite (eqb_false _ _ Ha).
Qed.

Lemma missing_namespace_id_witness :
  verdict (Doubles.packages (JArray [Fixture.claim "ns-1" "app-1"]))
    (delete "SCW_NAMESPACE_ID" Fixture.environ) (Fixture.request "token")
  = Some errorInvalidNamespace.
Proof.
  apply (missing_namespace_id _ _ _ {| NamespaceID := "ns-1"; ApplicationID := "app-1" |}).
  - apply (double_first_claim _ _ _ []).
    + vm_compute. discriminate.
    + vm_compute. reflexivity.
    + discriminate.
    + vm_compute. reflexivity.
  - vm_compute. discriminate.
  - vm_compute. reflexivity.
Defined.

(** X3. A match is always on a non-empty field: when a check with first
    claim [c] succeeds, the field of [c] that equals the runtime's id is
    not the empty string.  A claim with both fields empty is never
    accepted. *)
Theorem match_is_on_a_non_empty_field pkg (environ : gmap string string) req c :
  first_claim pkg environ req c →
  verdict pkg environ req = None →
  (NamespaceID c = Getenv environ "SCW_NAMESPACE_ID" ∧ NamespaceID c ≠ "")
  ∨ (ApplicationID c = Getenv environ "SCW_APPLICATION_ID" ∧ ApplicationID c ≠ "").
Proof.
  intros (claims & rest & Hv & Hdec).
  rewrite (verdict_verified pkg environ req claims Hv), Hdec.
  destruct (String.eqb_spec (Getenv environ "SCW_APPLICATION_ID") "") as [Ha|Ha];
    [discriminate|].
  destruct (String.eqb_spec (Getenv environ "SCW_NAMESPACE_ID") "") as [Hn|Hn];
    [discriminate|].
  destruct (String.eqb_spec (NamespaceID c) (Getenv environ "SCW_NAMESPACE_ID"))
    as [Hns|Hns].
  - intros _. left. split; [exact Hns|congruence].
  - destruct (String.eqb_spec (ApplicationID c) (Getenv environ "SCW_APPLICATION_ID"))
      as [Happ|Happ]; [|discriminate].
    intros _. right. split; [exact Happ|congruence].
Qed.

Lemma match_is_on_a_non_empty_field_witness :
  ("" = Getenv Fixture.environ "SCW_NAMESPACE_ID" ∧ "" ≠ "")
  ∨ ("app-1" = Getenv Fixture.environ "SCW_APPLICATION_ID" ∧ "app-1" ≠ "").
Proof.
  apply (match_is_on_a_non_empty_field
           (Doubles.packages (JArray [JObject [("application_id", JString "app-1")]]))
           Fixture.environ (Fixture.request "token")
           {| NamespaceID := ""; ApplicationID := "app-1" |}).
  - apply (double_first_claim _ _ _ []).
    + vm_compute. discriminate.
    + vm_compute. reflexivity.
    + discriminate.
    + vm_compute. reflexivity.
  - vm_compute. reflexivity.
Defined.

(** ** What a verdict tells *)

(** X4. A runtime that is not public accepts a request only if every
    stage has been passed: a first claim was decoded from a verified
    token, both runtime ids are non-empty, and the claim matches one of
    them; the calls made are then those of a complete check, in order. *)
Theorem accepted_only_with_matching_claim pkg (environ : gmap string string) req :
  private environ →
  verdict pkg environ req = None →
  ∃ c, first_claim pkg environ req c
       ∧ Getenv environ "SCW_APPLICATION_ID" ≠ ""
       ∧ Getenv environ "SCW_NAMESPACE_ID" ≠ ""
       ∧ (NamespaceID c = Getenv environ "SCW_NAMESPACE_ID"
          ∨ ApplicationID c = Getenv environ "SCW_APPLICATION_ID")
       ∧ ∃ block claims, calls pkg environ req = calls_to_match environ req block claims.
Proof.
  intros Hp Hv. by_exit pkg environ req; try discriminate.
  - contradiction.
  - exists applicationClaims. split.
    + now apply (loaded_first_claim _ _ _ block parsedKey claims _ rest).
    + repeat split; try assumption. now exists block, claims.
Qed.

Lemma accepted_only_with_matching_claim_witness :
  ∃ c, first_claim Fixture.packages Fixture.environ
         (Fixture.request "RS256.ns-1+app-9.signed") c
       ∧ Getenv Fixture.environ "SCW_APPLICATION_ID" ≠ ""
       ∧ Getenv Fixture.environ "SCW_NAMESPACE_ID" ≠ ""
       ∧ (NamespaceID c = Getenv Fixture.environ "SCW_NAMESPACE_ID"
          ∨ ApplicationID c = Getenv Fixture.environ "SCW_APPLICATION_ID")
       ∧ ∃ block claims,
           calls Fixture.packages Fixture.environ
             (Fixture.request "RS256.ns-1+app-9.signed")
           = calls_to_match Fixture.environ
               (Fixture.request "RS256.ns-1+app-9.signed") block claims.
Proof.
  apply accepted_only_with_matching_claim.
  - vm_compute. discriminate.
  - vm_compute. reflexivity.
Defined.

(** X5. An error verdict is one of the five errors declared in [auth.go],
    or the error the token parser returned for the request's token, or
    the type error [json.Unmarshal] returned for the claims of a verified
    token; nothing else reaches the caller. *)
Theorem rejection_kinds pkg (environ : gmap string string) req e :
  verdict pkg environ req = Some e →
  declared_in_auth e = true
  ∨ (∃ parsedKey claims,
       reaches_verify pkg environ req parsedKey
       ∧ parsed pkg req parsedKey = (claims, Some e))
  ∨ (∃ claims parsedClaims,
       verified pkg environ req claims
       ∧ json_Unmarshal (marshalled claims) [] = (parsedClaims, Some e)
       ∧ is_UnmarshalTypeError e = true).
Proof.
  intros Hv. by_exit pkg environ req; try discriminate;
    injection Hv as <-; try (left; reflexivity).
  - right. left. exists parsedKey, claims. split; [|assumption].
    now apply (key_loaded_from_reaches _ _ _ block).
  - right. right. exists claims, parsedClaims. split; [|split].
    + exists parsedKey. split; [|assumption].
      now apply (key_loaded_from_reaches _ _ _ block).
    + assumption.
    + eapply json_Unmarshal_error; eassumption.
Qed.

Lemma rejection_kinds_witness :
  let e := jwt_ValidationError None jwt.ValidationErrorMalformed
             "token contains an invalid number of segments" in
  declared_in_auth e = true
  ∨ (∃ parsedKey claims,
       reaches_verify Fixture.packages Fixture.environ (Fixture.request "abc") parsedKey
       ∧ parsed Fixture.packages (Fixture.request "abc") parsedKey = (claims, Some e))
  ∨ (∃ claims parsedClaims,
       verified Fixture.packages Fixture.environ (Fixture.request "abc") claims
       ∧ json_Unmarshal (marshalled claims) [] = (parsedClaims, Some e)
       ∧ is_UnmarshalTypeError e = true).
Proof.
  apply rejection_kinds. vm_compute. reflexivity.
Defined.

(** ** The key parser's error and the log *)

(** X6. When the PEM block does not parse as a PKCS#1 key, the parser's
    error is handed to [log.Print], that is the last call of the check,
    and the verdict is [errorInvalidPublicKey]: the parser's error goes
    to the log and not to the caller. *)
Theorem key_parse_error_goes_to_log pkg (environ : gmap string string) req
    block parsedKey err :
  private environ → token_of req ≠ "" →
  Getenv environ "SCW_PUBLIC_KEY" ≠ "" →
  pem_Decode pkg (Getenv environ "SCW_PUBLIC_KEY") = Some block →
  x509_ParsePKCS1PublicKey pkg (Bytes block) = (parsedKey, err) →
  is_Some err ∨ parsedKey = None →
  run (authenticate pkg environ req)
  = (Some errorInvalidPublicKey,
     calls_to_key ++ [ call_pem_Decode (Getenv environ "SCW_PUBLIC_KEY");
                       call_x509_ParsePKCS1PublicKey (Bytes block);
                       call_log_Print err ])%list.
Proof.
  unfold private, token_of. intros Hp Ht Hk Hb Hx Hf. go_exec.
  go_with (eqb_false _ _ Hp). go_with (eqb_false _ _ Ht).
  go_with (eqb_false _ _ Hk). go_with Hb. go_with Hx.
  destruct err as [e|]; [reflexivity|].
  destruct Hf as [[e He]| ->]; [discriminate|reflexivity].
Qed.

Lemma key_parse_error_goes_to_log_witness :
  run (authenticate Fixture.packages
         (<["SCW_PUBLIC_KEY" := "PEM of an EC key"]> Fixture.environ)
         (Fixture.request "RS256.ns-1+app-9.signed"))
  = (Some errorInvalidPublicKey,
     calls_to_key
     ++ [ call_pem_Decode
            (Getenv (<["SCW_PUBLIC_KEY" := "PEM of an EC key"]> Fixture.environ)
               "SCW_PUBLIC_KEY");
          call_x509_ParsePKCS1PublicKey "SPKI";
          call_log_Print (Some (lib_error "asn1: structure error: tags don't match")) ])%list.
Proof.
  apply (key_parse_error_goes_to_log Fixture.packages _ _
           {| Type_ := "PUBLIC KEY"; Bytes := "SPKI" |} None).
  - vm_compute. discriminate.
  - vm_compute. discriminate.
  - vm_compute. discriminate.
  - vm_compute. reflexivity.
  - vm_compute. reflexivity.
  - left. eexists. reflexivity.
Defined.

(** X7. [log.Print] is called in no other case: if the check has logged
    a value, the value is the error of the key parser for the configured
    PEM block, the parse has failed, and the verdict is
    [errorInvalidPublicKey].  No token, claim or identity is ever
    logged. *)
Theorem log_only_on_key_parse_failure pkg (environ : gmap string string) req v :
  In (call_log_Print v) (calls pkg environ req) →
  verdict pkg environ req = Some errorInvalidPublicKey
  ∧ ∃ block parsedKey,
      pem_Decode pkg (Getenv environ "SCW_PUBLIC_KEY") = Some block
      ∧ x509_ParsePKCS1PublicKey pkg (Bytes block) = (parsedKey, v)
      ∧ (is_Some v ∨ parsedKey = None).
Proof.
  intros Hin. by_exit pkg environ req;
    try (exfalso;
         cbv [calls_to_key calls_to_match calls_to_extract calls_to_verify app In]
           in Hin;
         intuition discriminate).
  cbv [calls_to_key app In] in Hin.
  assert (err = v) as <- by (intuition (discriminate || congruence)).
  split; [reflexivity|]. now exists block, parsedKey.
Qed.

Lemma log_only_on_key_parse_failure_witness :
  verdict Fixture.packages
    (<["SCW_PUBLIC_KEY" := "PEM of an EC key"]> Fixture.environ)
    (Fixture.request "RS256.ns-1+app-9.signed") = Some errorInvalidPublicKey
  ∧ ∃ block parsedKey,
      pem_Decode Fixture.packages
        (Getenv (<["SCW_PUBLIC_KEY" := "PEM of an EC key"]> Fixture.environ)
           "SCW_PUBLIC_KEY") = Some block
      ∧ x509_ParsePKCS1PublicKey Fixture.packages (Bytes block)
        = (parsedKey, Some (lib_error "asn1: structure error: tags don't match"))
      ∧ (is_Some (Some (lib_error "asn1: structure error: tags don't match"))
         ∨ parsedKey = None).
Proof.
  apply log_only_on_key_parse_failure. vm_compute. auto 10.
Defined.

(** ** What is parsed, and when *)

(** X8. The token parser is called only with the value of the request's
    token header, unchanged and non-empty, and only after the key has
    been loaded in a runtime that is not public. *)
Theorem parser_called_with_loaded_key pkg (environ : gmap string string) req
    tokenString :
  In (call_jwt_ParseWithClaims tokenString) (calls pkg environ req) →
  tokenString = token_of req
  ∧ tokenString ≠ ""
  ∧ ∃ parsedKey, reaches_verify pkg environ req parsedKey.
Proof.
  intros Hin. by_exit pkg environ req;
    try (exfalso; cbv [calls_to_key app In] in Hin; intuition discriminate);
    match goal with
    | Hl : key_loaded_from _ _ _ ?block ?k |- _ =>
        assert (Ht : tokenString = token_of req)
          by (cbv [calls_to_match calls_to_extract calls_to_verify app In] in Hin;
              intuition (discriminate || congruence));
        split; [exact Ht|]; split;
        [ rewrite Ht; apply Hl
        | exists k; now apply (key_loaded_from_reaches _ _ _ block) ]
    end.
Qed.

Lemma parser_called_with_loaded_key_witness :
  "abc" = token_of (Fixture.request "abc")
  ∧ "abc" ≠ ""
  ∧ ∃ parsedKey,
      reaches_verify Fixture.packages Fixture.environ (Fixture.request "abc") parsedKey.
Proof.
  apply parser_called_with_loaded_key. vm_compute. auto 10.
Defined.

(** X9. The runtime identity is read only when a first claim has been
    decoded from a verified token: a request without a valid token cannot
    make the check look at "SCW_APPLICATION_ID" or "SCW_NAMESPACE_ID". *)
Theorem identity_read_after_claim pkg (environ : gmap string string) req key :
  key = "SCW_APPLICATION_ID" ∨ key = "SCW_NAMESPACE_ID" →
  In (call_os_Getenv key) (calls pkg environ req) →
  ∃ c, first_claim pkg environ req c.
Proof.
  intros Hk Hin. by_exit pkg environ req;
    try (exfalso;
         cbv [calls_to_key calls_to_extract calls_to_verify app In] in Hin;
         destruct Hk as [-> | ->]; intuition discriminate);
    exists applicationClaims;
    now apply (loaded_first_claim _ _ _ block parsedKey claims _ rest).
Qed.

Lemma identity_read_after_claim_witness :
  ∃ c, first_claim Fixture.packages Fixture.environ
         (Fixture.request "RS256.ns-2+app-9.signed") c.
Proof.
  apply (identity_read_after_claim _ _ _ "SCW_NAMESPACE_ID").
  - right. reflexivity.
  - vm_compute. auto 12.
Defined.


(** ** What the verdict depends on *)

(** X11. Of the request only the token header is read, and of the
    environment only the four variables: two environments that agree on
    them and two requests with the same token give the same verdict and
    the same calls. *)
Theorem run_depends_on_token_and_four_variables pkg
    (environ environ' : gmap string string) req req' :
  (∀ key, In key ["SCW_PUBLIC"; "SCW_PUBLIC_KEY"; "SCW_APPLICATION_ID";
                  "SCW_NAMESPACE_ID"] →
          Getenv environ key = Getenv environ' key) →
  token_of req = token_of req' →
  run (authenticate pkg environ req) = run (authenticate pkg environ' req').
Proof.
  unfold token_of. intros He Ht. go_exec.
  rewrite <- (He "SCW_PUBLIC"), <- (He "SCW_PUBLIC_KEY"),
    <- (He "SCW_APPLICATION_ID"), <- (He "SCW_NAMESPACE_ID"), <- Ht
    by (cbn; tauto).
  reflexivity.
Qed.

Lemma run_depends_on_token_and_four_variables_witness :
  run (authenticate Fixture.packages Fixture.environ
         (Fixture.request "RS256.ns-1+app-9.signed"))
  = run (authenticate Fixture.packages (<["HOME" := "/root"]> Fixture.environ)
           {| Header := {[ "Scw_functions_token" := ["RS256.ns-1+app-9.signed"; "x"] ]}
                        ∪ {[ "Accept" := ["*/*"] ]} |}).
Proof.
  apply run_depends_on_token_and_four_variables.
  - intros key Hk. cbn in Hk.
    destruct Hk as [<-|[<-|[<-|[<-|[]]]]]; vm_compute; reflexivity.
  - vm_compute. reflexivity.
Defined.

(** X12. Only the first entry of the claim array is compared: two checks
    in the same environment whose first decoded claims are equal get the
    same verdict, whatever entries follow and whatever token, key or
    packages led there. *)
Theorem verdict_depends_on_first_claim pkg pkg' (environ : gmap string string)
    req req' c :
  first_claim pkg environ req c →
  first_claim pkg' environ req' c →
  verdict pkg environ req = verdict pkg' environ req'.
Proof.
  intros (claims & rest & Hv & Hdec) (claims' & rest' & Hv' & Hdec').
  rewrite (verdict_verified pkg environ req claims Hv), Hdec.
  rewrite (verdict_verified pkg' environ req' claims' Hv'), Hdec'.
  reflexivity.
Qed.

Lemma verdict_depends_on_first_claim_witness :
  verdict (Doubles.packages
             (JArray [Fixture.claim "ns-2" "app-9"; Fixture.claim "ns-1" "app-1"]))
    Fixture.environ (Fixture.request "token")
  = verdict Fixture.packages Fixture.environ (Fixture.request "RS256.ns-2+app-9.signed").
Proof.
  apply (verdict_depends_on_first_claim _ _ _ _ _
           {| NamespaceID := "ns-2"; ApplicationID := "app-9" |}).
  - apply (double_first_claim _ _ _ [{| NamespaceID := "ns-1"; ApplicationID := "app-1" |}]).
    + vm_compute. discriminate.
    + vm_compute. reflexivity.
    + discriminate.
    + vm_compute. reflexivity.
  - apply (fixture_first_claim "ns-2+app-9" "ns-2" "app-9"). vm_compute. reflexivity.
Defined.

(** ** The public flag and the full check *)

(** C10. The bypass is taken for the flag value "true" only.  For every
    other value ("TRUE", "1", anything else) the check is carried out
    in full, as for a private function: the run is the one of the same
    environment with the flag unset and leaves by one of the exits of
    the token check; the token header is read next; a request without a
    token is rejected; the verdict is success exactly when a first claim
    has been decoded from a verified token, both runtime ids are
    non-empty and the claim matches one of them; and a success has loaded
    the key, parsed the token, extracted the claims and read the
    identity, in this order. *)
Theorem bypass_only_on_exact_true pkg (environ : gmap string string) req :
  Getenv environ "SCW_PUBLIC" ≠ "true" →
  run (authenticate pkg environ req)
  = run (authenticate pkg (delete "SCW_PUBLIC" environ) req)
  ∧ calls pkg environ req !! 1%nat = Some (call_Header_Get "SCW_FUNCTIONS_TOKEN")
  ∧ calls pkg environ req ≠ [call_os_Getenv "SCW_PUBLIC"]
  ∧ exit_path pkg environ req (verdict pkg environ req) (calls pkg environ req)
  ∧ (token_of req = "" → verdict pkg environ req = Some errorEmptyRequestToken)
  ∧ (verdict pkg environ req = None
     ↔ ∃ c, first_claim pkg environ req c
            ∧ Getenv environ "SCW_APPLICATION_ID" ≠ ""
            ∧ Getenv environ "SCW_NAMESPACE_ID" ≠ ""
            ∧ (NamespaceID c = Getenv environ "SCW_NAMESPACE_ID"
               ∨ ApplicationID c = Getenv environ "SCW_APPLICATION_ID"))
  ∧ (verdict pkg environ req = None →
     ∃ block claims, calls pkg environ req = calls_to_match environ req block claims).
Proof.
  intros Hp.
  assert (H1 : calls pkg environ req !! 1%nat
               = Some (call_Header_Get "SCW_FUNCTIONS_TOKEN")).
  { by_exit pkg environ req; [contradiction|reflexivity..]. }
  split; [|split; [exact H1|split; [|split; [|split; [|split]]]]].
  - apply run_flag_irrelevant; [exact Hp| |].
    + unfold Getenv. rewrite lookup_delete_eq. discriminate.
    + intros key Hk. unfold Getenv. now rewrite lookup_delete_ne.
  - intros Hc. rewrite Hc in H1. discriminate.
  - apply run_exit_path.
  - intros Ht. unfold verdict. now rewrite (run_no_token pkg environ req Hp Ht).
  - split.
    + intros Hv. by_exit pkg environ req; try discriminate; try contradiction.
      exists applicationClaims. split.
      * now apply (loaded_first_claim _ _ _ block parsedKey claims _ rest).
      * repeat split; assumption.
    + intros (c & Hc & Ha & Hn & Hm).
      rewrite (verdict_first_claim pkg environ req c Hc Ha Hn).
      destruct Hm as [-> | ->]; rewrite String.eqb_refl; cbn [negb andb];
        [reflexivity|]. now rewrite andb_false_r.
  - intros Hv. by_exit pkg environ req; try discriminate; try contradiction.
    now exists block, claims.
Qed.

(** With the flag "TRUE" a token that is not in compact form is rejected
    by the parser, and with the flag "1" a good token is accepted after a
    complete check, while a request without token is rejected. *)
Lemma bypass_only_on_exact_true_witness :
  let upper := <["SCW_PUBLIC" := "TRUE"]> Fixture.environ in
  let one := <["SCW_PUBLIC" := "1"]> Fixture.environ in
  let good := Fixture.request "RS256.ns-1+app-9.signed" in
  (verdict Fixture.packages upper (Fixture.request "abc") = None
   ↔ ∃ c, first_claim Fixture.packages upper (Fixture.request "abc") c
          ∧ Getenv upper "SCW_APPLICATION_ID" ≠ ""
          ∧ Getenv upper "SCW_NAMESPACE_ID" ≠ ""
          ∧ (NamespaceID c = Getenv upper "SCW_NAMESPACE_ID"
             ∨ ApplicationID c = Getenv upper "SCW_APPLICATION_ID"))
  ∧ verdict Fixture.packages upper (Fixture.request "abc")
    = Some (jwt_ValidationError None jwt.ValidationErrorMalformed
              "token contains an invalid number of segments")
  ∧ (verdict Fixture.packages one good = None →
     ∃ block claims,
       calls Fixture.packages one good = calls_to_match one good block claims)
  ∧ verdict Fixture.packages one good = None
  ∧ length (calls Fixture.packages one good) = 10%nat
  ∧ verdict Fixture.packages one Fixture.no_token = Some errorEmptyRequestToken.
Proof.
  cbv zeta. split; [|split; [|split; [|split; [|split]]]].
  - refine (proj1 (proj2 (proj2 (proj2 (proj2 (proj2
              (bypass_only_on_exact_true Fixture.packages
                 (<["SCW_PUBLIC" := "TRUE"]> Fixture.environ)
                 (Fixture.request "abc") _))))))).
    vm_compute. discriminate.
  - vm_compute. reflexivity.
  - refine (proj2 (proj2 (proj2 (proj2 (proj2 (proj2
              (bypass_only_on_exact_true Fixture.packages
                 (<["SCW_PUBLIC" := "1"]> Fixture.environ)
                 (Fixture.request "RS256.ns-1+app-9.signed") _))))))).
    vm_compute. discriminate.
  - vm_compute. reflexivity.
  - vm_compute. reflexivity.
  - vm_compute. reflexivity.
Defined.
